(** * Client-side image and PDF tools: a shallow embedding of
    [src/js/image-tools.js] ([ImageTools] and [PDFTools]).

    Conventions of the embedding.
    - The promise of an [async] function is its outcome: [Ok v] for a
      resolved promise, [Err e] for a rejected one (or a [throw] that reaches
      the caller). A promise made with [new Promise] and settled from the
      callbacks of an image is a [promise]: resolved, rejected, or left
      pending by an exception thrown inside the callback.
    - A page number or page index is an integer ([Z]); a value that may be
      [undefined] is an [option].
    - A dimension, a ratio or a quality is a JavaScript number, that is an
      IEEE 754 binary64 value ([PrimFloat.float]).
    - A string is a [String.string]; the text of a data URL, which is read
      character by character, is the list of its UTF-16 code units.
    - The libraries the code calls (pdf-lib, the canvas, the image decoder,
      [atob], the printing of numbers, [toLowerCase]) are the variables of
      the section that uses them; [console.error] and the object-URL
      bookkeeping leave no trace in a result and are left out. *)

From Stdlib Require Import Floats.
From Stdlib Require Import ZArith List Bool Lia Ascii String.
From Stdlib Require Import Strings.Byte.
From Stdlib Require Import Sorting.Sorted Sorting.Permutation.
From Stdlib Require Import DecimalString.
From Stdlib Require DecimalZ.
Import ListNotations.

Local Open Scope string_scope.
Local Open Scope list_scope.
Local Open Scope Z_scope.

(** ** Outcomes of asynchronous calls *)

(** What a [throw] carries: [new Error(msg)] raised by this file, a
    [TypeError] raised by the engine, or whatever a library rejects with. *)
Inductive JsError : Type :=
| Error (msg : string)
| TypeError (msg : string)
| LibraryError (tag : string).

Inductive result (A : Type) : Type :=
| Ok (a : A)
| Err (e : JsError).
Arguments Ok {A} a.
Arguments Err {A} e.

Definition bind {A B : Type} (r : result A) (k : A -> result B) : result B :=
  match r with
  | Ok a => k a
  | Err e => Err e
  end.

Notation "x <- r ;; k" := (bind r (fun x => k))
  (at level 61, r at next level, right associativity).

(** [try { body } catch (error) { handler }]. *)
Definition try_catch {A : Type} (body : result A) (handler : JsError -> result A)
  : result A :=
  match body with
  | Ok a => Ok a
  | Err e => handler e
  end.

(** [catch (error) { console.error(...); throw error; }]. *)
Definition rethrow {A : Type} (e : JsError) : result A := Err e.

Fixpoint mapM {A B : Type} (f : A -> result B) (l : list A) : result (list B) :=
  match l with
  | [] => Ok []
  | x :: rest => y <- f x ;; ys <- mapM f rest ;; Ok (y :: ys)
  end.

(** ** Built-ins of the language *)

(** [Array.from({ length: len }, (_, i) => f(i))]; a length that is not
    positive gives the empty array. *)
Definition Array_from {A : Type} (len : Z) (f : Z -> A) : list A :=
  map (fun i => f (Z.of_nat i)) (seq 0 (Z.to_nat len)).

(** [arr[i]]: [None] is [undefined]. *)
Definition Array_get {A : Type} (arr : list A) (i : Z) : option A :=
  if i <? 0 then None else nth_error arr (Z.to_nat i).

(** [arr.sort(cmp)] on integers. The result of [sort] is fixed by the
    comparator when it is consistent (the sort is stable); insertion from the
    right computes it. *)
Fixpoint sort_insert (cmp : Z -> Z -> Z) (x : Z) (l : list Z) : list Z :=
  match l with
  | [] => [x]
  | y :: rest => if cmp x y <=? 0 then x :: y :: rest
                 else y :: sort_insert cmp x rest
  end.

Definition Array_sort (cmp : Z -> Z -> Z) (l : list Z) : list Z :=
  fold_right (sort_insert cmp) [] l.

(** [String(n)] for an integer. *)
Definition Z_to_string (n : Z) : string :=
  NilZero.string_of_int (Z.to_int n).

(** [arr.join(sep)] on integers. *)
Fixpoint Array_join (sep : string) (l : list Z) : string :=
  match l with
  | [] => ""
  | [x] => Z_to_string x
  | x :: rest => (Z_to_string x ++ sep ++ Array_join sep rest)%string
  end.

(** [`${x + 1}`] where [x] may be [undefined]. *)
Definition show_succ (x : option Z) : string :=
  match x with
  | Some i => Z_to_string (i + 1)
  | None => "NaN"
  end.

(** [v || d] on a number that may be absent: [undefined] and [0] are
    falsy. *)
Definition or_default (v : option Z) (d : Z) : Z :=
  match v with
  | Some x => if x =? 0 then d else x
  | None => d
  end.

(** *** [name.replace(/\.[^/.]+$/, "")] *)

Definition is_dot (c : ascii) : bool := Ascii.eqb c ".".
Definition is_slash (c : ascii) : bool := Ascii.eqb c "/".

(** [s] is matched in full by [[^/.]*]. *)
Fixpoint no_dot_slash (s : string) : bool :=
  match s with
  | EmptyString => true
  | String c rest => negb (is_dot c) && negb (is_slash c) && no_dot_slash rest
  end.

(** [s] is matched in full by [[^/.]+$]. *)
Definition ext_tail (s : string) : bool :=
  match s with
  | EmptyString => false
  | String _ _ => no_dot_slash s
  end.

(** The leftmost match is replaced by the empty string; the match runs to the
    end of the input, so what is left is the text before it. *)
Fixpoint strip_extension (s : string) : string :=
  match s with
  | EmptyString => EmptyString
  | String c rest =>
      if is_dot c && ext_tail rest then EmptyString
      else String c (strip_extension rest)
  end.

(** ** Files and blobs *)

Definition Bytes : Type := list byte.

Record Blob : Type := mkBlob {
  blob_data : Bytes;
  blob_type : string
}.

Definition blob_size (b : Blob) : Z := Z.of_nat (List.length (blob_data b)).

(** [new File([blob], name, { type })]. *)
Record File : Type := mkFile {
  file_data : Bytes;
  name : string;
  type : string
}.

Definition new_File (b : Blob) (n : string) (t : string) : File :=
  mkFile (blob_data b) n t.

(** [await file.arrayBuffer()]. *)
Definition arrayBuffer (f : File) : Bytes := file_data f.

(** ** PDFTools *)

Record MergeResult : Type := mkMergeResult {
  blob : Blob;
  size : Z;
  pages : Z
}.

Record SplitOptions : Type := mkSplitOptions {
  start : option Z;
  end_ : option Z;
  selectedPages : option (list Z)
}.

Record SplitResult : Type := mkSplitResult {
  files : list File;
  totalPages : Z
}.

Section PDFTools.

(** pdf-lib. A document is the sequence of its pages; a copied page is the
    page it was copied from. *)
Variable Page : Type.
Definition PDFDocument : Type := list Page.

(** [PDFLib.PDFDocument.load(bytes)] and [doc.save()]. *)
Variable load : Bytes -> result PDFDocument.
Variable save : PDFDocument -> Bytes.

(** [PDFLib.PDFDocument.create()]. *)
Definition create : PDFDocument := [].

Definition getPageCount (doc : PDFDocument) : Z := Z.of_nat (List.length doc).

Definition getPageIndices (doc : PDFDocument) : list Z :=
  Array_from (getPageCount doc) (fun i => i).

(** [dest.copyPages(src, indices)] reads [src.getPages()[i].node] for each
    index in turn, which is a [TypeError] where there is no such page. *)
Definition copyPage (src : PDFDocument) (i : Z) : result Page :=
  match Array_get src i with
  | Some p => Ok p
  | None => Err (TypeError "Cannot read properties of undefined")
  end.

Definition copyPages (src : PDFDocument) (indices : list Z) : result (list Page) :=
  mapM (copyPage src) indices.

Definition addPage (doc : PDFDocument) (p : Page) : PDFDocument := doc ++ [p].

(** [copiedPages.forEach(page => { doc.addPage(page); })]. *)
Definition addPages (doc : PDFDocument) (copied : list Page) : PDFDocument :=
  fold_left addPage copied doc.

(** The [for (const file of files)] loop of [mergePDFs], on the state
    ([mergedPdf], [totalPages]). *)
Fixpoint merge_loop (fs : list File) (mergedPdf : PDFDocument) (total : Z)
  : result (PDFDocument * Z) :=
  match fs with
  | [] => Ok (mergedPdf, total)
  | file :: rest =>
      pdf <- load (arrayBuffer file) ;;
      copiedPages <- copyPages pdf (getPageIndices pdf) ;;
      merge_loop rest (addPages mergedPdf copiedPages) (total + getPageCount pdf)
  end.

Definition mergePDFs (fs : list File) : result MergeResult :=
  try_catch
    (st <- merge_loop fs create 0 ;;
     let mergedPdfBytes := save (fst st) in
     let mergedBlob := mkBlob mergedPdfBytes "application/pdf" in
     Ok (mkMergeResult mergedBlob (blob_size mergedBlob) (snd st)))
    rethrow.

(** The [switch (splitMethod)] of [splitPDF]: the page-index sets. *)
Definition pageIndices_of (total : Z) (splitMethod : string) (options : SplitOptions)
  : result (list (list Z)) :=
  if (splitMethod =? "all")%string then
    Ok (Array_from total (fun i => [i]))
  else if (splitMethod =? "range")%string then
    let start := Z.max 1 (or_default (start options) 1) - 1 in
    let end_ := Z.min total (or_default (end_ options) total) - 1 in
    if start >? end_ then Err (Error "Invalid page range")
    else Ok [Array_from (end_ - start + 1) (fun i => start + i)]
  else if (splitMethod =? "custom")%string then
    match selectedPages options with
    | None => Err (Error "No pages selected")
    | Some [] => Err (Error "No pages selected")
    | Some sel =>
        let selected := Array_sort (fun a b => a - b) (map (fun p => p - 1) sel) in
        Ok [selected]
    end
  else Err (Error "Invalid split method").

(** The name of one output file. *)
Definition split_name (file : File) (splitMethod : string)
    (pageIndices : list (list Z)) (indices : list Z) : string :=
  let fileName := strip_extension (name file) in
  let fileName :=
    if (1 <? Z.of_nat (List.length pageIndices)) || (splitMethod =? "all")%string then
      (fileName ++ "_pages_" ++ Array_join "-" (map (fun i => i + 1) indices))%string
    else if (splitMethod =? "range")%string then
      (fileName ++ "_pages_" ++ show_succ (Array_get indices 0) ++ "-"
                ++ show_succ (Array_get indices (Z.of_nat (List.length indices) - 1)))%string
    else fileName in
  (fileName ++ ".pdf")%string.

(** The body of [for (const indices of pageIndices)]. *)
Definition split_one (file : File) (pdf : PDFDocument) (splitMethod : string)
    (pageIndices : list (list Z)) (indices : list Z) : result File :=
  copiedPages <- copyPages pdf indices ;;
  let newPdf := addPages create copiedPages in
  let pdfBlob := mkBlob (save newPdf) "application/pdf" in
  Ok (new_File pdfBlob (split_name file splitMethod pageIndices indices)
               "application/pdf").

Definition splitPDF (file : File) (splitMethod : string) (options : SplitOptions)
  : result SplitResult :=
  try_catch
    (pdf <- load (arrayBuffer file) ;;
     let totalPages := getPageCount pdf in
     pageIndices <- pageIndices_of totalPages splitMethod options ;;
     splitFiles <- mapM (split_one file pdf splitMethod pageIndices) pageIndices ;;
     Ok (mkSplitResult splitFiles totalPages))
    rethrow.

Definition getPDFPageCount (file : File) : result Z :=
  try_catch
    (pdf <- load (arrayBuffer file) ;;
     Ok (getPageCount pdf))
    (fun _ => Ok 0).

End PDFTools.

Arguments getPageCount {Page} doc.
Arguments getPageIndices {Page} doc.
Arguments create {Page}.
Arguments copyPage {Page} src i.
Arguments copyPages {Page} src indices.
Arguments addPage {Page} doc p.
Arguments addPages {Page} doc copied.
Arguments merge_loop {Page} load fs mergedPdf total.
Arguments mergePDFs {Page} load save fs.
Arguments split_one {Page} save file pdf splitMethod pageIndices indices.
Arguments splitPDF {Page} load save file splitMethod options.
Arguments getPDFPageCount {Page} load file.

(** pdf-lib's [doc.save()] with its default options: a document without
    pages is given one blank page, the page [addPage()] makes, before it is
    written. [serialize] is the writer. *)
Definition PDFDocument_save {Page : Type} (serialize : list Page -> Bytes)
    (blank : Page) (doc : list Page) : Bytes :=
  let doc := if getPageCount doc =? 0 then addPage doc blank else doc in
  serialize doc.

(** ** ImageTools *)

(** A JavaScript number that may be [undefined]. *)
Definition jsnum : Type := option float.

(** Truthiness of such a value: [undefined], [0], [-0] and [NaN] are falsy. *)
Definition truthy (v : jsnum) : bool :=
  match v with
  | None => false
  | Some x => negb (PrimFloat.is_zero x || PrimFloat.is_nan x)
  end.

(** [ToNumber]: [undefined] is [NaN] in arithmetic. *)
Definition ToNumber (v : jsnum) : float :=
  match v with
  | Some x => x
  | None => PrimFloat.nan
  end.

(** [Math.min(x, y)]: [NaN] if either is [NaN], and [-0] is below [+0]. *)
Definition Math_min (x y : float) : float :=
  if PrimFloat.is_nan x || PrimFloat.is_nan y then PrimFloat.nan
  else if (x <? y)%float then x
  else if (y <? x)%float then y
  else if PrimFloat.get_sign x then x else y.

(** The dimension arithmetic of [resizeImage]: ([newWidth], [newHeight]) from
    the natural size of the image and the arguments. *)
Definition resize_dimensions (img_width img_height : float)
    (width height : jsnum) (maintainAspectRatio : bool) : jsnum * jsnum :=
  if maintainAspectRatio then
    let aspectRatio := (img_width / img_height)%float in
    if truthy width && negb (truthy height) then
      (width, Some (ToNumber width / aspectRatio)%float)
    else if truthy height && negb (truthy width) then
      (Some (ToNumber height * aspectRatio)%float, height)
    else if truthy width && truthy height then
      let widthRatio := (ToNumber width / img_width)%float in
      let heightRatio := (ToNumber height / img_height)%float in
      let ratio := Math_min widthRatio heightRatio in
      (Some (img_width * ratio)%float, Some (img_height * ratio)%float)
    else (width, height)
  else (width, height).

(** [s.split('.').pop()]: the text after the last dot, all of [s] without
    one. [acc] is the segment being read. *)
Fixpoint last_segment (acc s : string) : string :=
  match s with
  | EmptyString => acc
  | String c rest =>
      if is_dot c then last_segment EmptyString rest
      else last_segment (acc ++ String c EmptyString)%string rest
  end.

(** *** Text by code unit *)

(** A string as its UTF-16 code units, for text that is read character by
    character: the data URL and its media type. *)
Definition ustring : Type := list N.

(** The code units of a string. *)
Definition ustr (s : string) : ustring := map N_of_ascii (list_ascii_of_string s).

(** [s.split(',')]: the pieces between the commas, at least one. [acc] is
    the piece being read. *)
Fixpoint split_comma (acc s : ustring) : list ustring :=
  match s with
  | [] => [acc]
  | c :: rest =>
      if (c =? 44)%N
      then acc :: split_comma [] rest
      else split_comma (acc ++ [c]) rest
  end.

(** A character that [.] does not match: LF, CR, U+2028 and U+2029. *)
Definition is_line_end (c : N) : bool :=
  ((c =? 10) || (c =? 13) || (c =? 8232) || (c =? 8233))%N.

(** [.*?;] read lazily from the start of [s]: the text up to the first
    semicolon, if no line end comes before it. *)
Fixpoint until_semicolon (s : ustring) : option ustring :=
  match s with
  | [] => None
  | c :: rest =>
      if (c =? 59)%N then Some []
      else if is_line_end c then None
      else match until_semicolon rest with
           | Some t => Some (c :: t)
           | None => None
           end
  end.

(** [s.match(/:(.*?);/)]: the capture of the leftmost match, [None] for
    [null]. *)
Fixpoint match_mime (s : ustring) : option ustring :=
  match s with
  | [] => None
  | c :: rest =>
      if (c =? 58)%N then
        match until_semicolon rest with
        | Some t => Some t
        | None => match_mime rest
        end
      else match_mime rest
  end.

(** [u8arr[n] = bstr.charCodeAt(n)]: a [Uint8Array] keeps the code modulo
    256. *)
Definition byte_of_unit (c : N) : byte :=
  match Byte.of_N (c mod 256) with
  | Some b => b
  | None => x00
  end.

Definition char_codes (bstr : ustring) : Bytes := map byte_of_unit bstr.

(** *** The type of a [Blob] or [File]

    The constructors keep the [type] option in ASCII lower case, and keep
    the empty string instead when it holds a character outside U+0020 to
    U+007E. *)

Definition is_printable (c : N) : bool := ((32 <=? c) && (c <=? 126))%N.

Definition ascii_lower_unit (c : N) : N :=
  if ((65 <=? c) && (c <=? 90))%N then (c + 32)%N else c.

Definition Blob_type (t : ustring) : string :=
  if forallb is_printable t
  then string_of_list_ascii (map (fun c => ascii_of_N (ascii_lower_unit c)) t)
  else EmptyString.

Definition File_type (t : string) : string := Blob_type (ustr t).

(** *** Promises settled from a callback *)

(** The outcome of a promise whose executor only installs callbacks: the
    callback that runs resolves or rejects it, and it stays pending for ever
    when the callback throws before doing either, the exception being caught
    by no one. *)
Inductive promise (A : Type) : Type :=
| Resolved (a : A)
| Rejected (e : JsError)
| Pending (uncaught : JsError).
Arguments Resolved {A} a.
Arguments Rejected {A} e.
Arguments Pending {A} uncaught.

(** An [onload] handler that ends in [resolve(value)]. *)
Definition on_load {A : Type} (handler : result A) : promise A :=
  match handler with
  | Ok a => Resolved a
  | Err e => Pending e
  end.

Section ImageTools.

(** The browser: a decoded image with its natural size, what [new Image()]
    makes of a file ([None]: [onerror] fires), the text [canvas.toDataURL]
    returns, [atob] (which throws on text that is not base64), the text of a
    number in a template string, and [String.prototype.toLowerCase]. *)
Variable Image : Type.
Variable img_width img_height : Image -> float.
Variable decode : File -> option Image.

(** A canvas: the values assigned to [width] and [height], and the
    [drawImage] call made on its context. *)
Record Canvas : Type := mkCanvas {
  canvas_width : jsnum;
  canvas_height : jsnum;
  drawn : Image;
  drawn_size : option (jsnum * jsnum)
}.

Variable toDataURL : Canvas -> string -> float -> ustring.
Variable atob : ustring -> result ustring.
Variable Number_toString : jsnum -> string.
Variable toLowerCase : string -> string.

Definition getFileExtension (filename : string) : string :=
  toLowerCase (last_segment EmptyString filename).

Definition dataURLToBlob (dataURL : ustring) : result Blob :=
  let arr := split_comma [] dataURL in
  match match_mime (nth 0 arr []) with
  | None => Err (TypeError "Cannot read properties of null")
  | Some mime =>
      bstr <- atob (nth 1 arr (ustr "undefined")) ;;
      Ok (mkBlob (char_codes bstr) (Blob_type mime))
  end.

(** A parameter with a default value. *)
Definition param_default (v : jsnum) (d : float) : float :=
  match v with
  | Some x => x
  | None => d
  end.

Definition convertToWebP (file : File) (quality : jsnum) (lossless : bool)
  : promise File :=
  let quality := param_default quality 0x1.999999999999ap-1%float (* 0.8 *) in
  match decode file with
  | Some img =>
      on_load
        (let canvas := mkCanvas (Some (img_width img)) (Some (img_height img)) img None in
         let qualityParam := if lossless then 1%float else quality in
         let webpDataUrl := toDataURL canvas "image/webp" qualityParam in
         webpBlob <- dataURLToBlob webpDataUrl ;;
         Ok (new_File webpBlob (strip_extension (name file) ++ ".webp")%string
               (File_type "image/webp")))
  | None => Rejected (Error "Failed to load image")
  end.

Definition resizeImage (file : File) (width height : jsnum)
    (maintainAspectRatio : bool) (outputFormat : string) : promise File :=
  match decode file with
  | Some img =>
      on_load
        (let dims := resize_dimensions (img_width img) (img_height img)
                       width height maintainAspectRatio in
         let newWidth := fst dims in
         let newHeight := snd dims in
         let canvas := mkCanvas newWidth newHeight img (Some (newWidth, newHeight)) in
         let mimeType :=
           if (outputFormat =? "original")%string then type file
           else ("image/" ++ outputFormat)%string in
         let quality := 0x1.ccccccccccccdp-1%float (* 0.9 *) in
         let dataUrl := toDataURL canvas mimeType quality in
         blob <- dataURLToBlob dataUrl ;;
         let extension :=
           if (outputFormat =? "original")%string then getFileExtension (name file)
           else outputFormat in
         Ok (new_File blob
               (strip_extension (name file) ++ "_" ++ Number_toString newWidth ++ "x"
                  ++ Number_toString newHeight ++ "." ++ extension)%string
               (File_type mimeType)))
  | None => Rejected (Error "Failed to load image")
  end.

End ImageTools.

Arguments mkCanvas {Image} canvas_width canvas_height drawn drawn_size.
Arguments canvas_width {Image} c.
Arguments canvas_height {Image} c.
Arguments convertToWebP {Image} img_width img_height decode toDataURL atob file quality lossless.
Arguments resizeImage {Image} img_width img_height decode toDataURL atob Number_toString toLowerCase file width height maintainAspectRatio outputFormat.

(** ** More of [ImageTools] *)

(** [s.includes(sub)]. *)
Fixpoint String_includes (s sub : string) : bool :=
  String.prefix sub s ||
  match s with
  | EmptyString => false
  | String _ rest => String_includes rest sub
  end.

Definition getFileType (file : File) : string :=
  if String_includes (type file) "png" then "image/png"
  else if String_includes (type file) "jpeg" || String_includes (type file) "jpg"
       then "image/jpeg"
  else type file.

(** ** More of [PDFTools] *)

(** What [generatePageThumbnails] leaves in the container. *)
Inductive ThumbNode : Type :=
| page_thumbnail (page : Z)
| page_more (hidden : Z)
| error_box.

Section PDFToolsPage.

Variable Page : Type.
Variable load : Bytes -> result (list Page).

(** [generatePageThumbnails]: the new children of [container]. *)
Definition generatePageThumbnails (file : File) (container : list ThumbNode)
    (maxThumbnails : Z) : list ThumbNode :=
  match load (arrayBuffer file) with
  | Ok pdf =>
      let pageCount := getPageCount pdf in
      let container : list ThumbNode := [] in
      let container :=
        container ++ Array_from (Z.min pageCount maxThumbnails)
                       (fun i => page_thumbnail (i + 1)) in
      if pageCount >? maxThumbnails
      then container ++ [page_more (pageCount - maxThumbnails)]
      else container
  | Err _ => [error_box]
  end.

End PDFToolsPage.

Arguments generatePageThumbnails {Page} load file container maxThumbnails.

(** ** [UI] ([src/js/ui.js]) *)

(** [a || b] on numbers: [b] when [a] is [0] or [NaN]. *)
Definition num_or (a b : float) : float :=
  if truthy (Some a) then a else b.

(** The [input] handler that [initFormValidation] puts on a number field:
    the value it writes back, from what [parseFloat] makes of the [min],
    [max] and [value] of the field ([NaN] for text that is not a number). *)
Definition validate_number_input (parsed_min parsed_max parsed_value : float)
  : float :=
  let min := num_or parsed_min 0%float in
  let max := num_or parsed_max PrimFloat.infinity in
  let value := num_or parsed_value min in
  let value := if (value <? min)%float then min else value in
  let value := if (max <? value)%float then max else value in
  value.

(** ** Notions used to state the properties *)

(** The comparator [(a, b) => a - b]. *)
Definition by_difference (a b : Z) : Z := a - b.

Definition Zsum (l : list Z) : Z := fold_right Z.add 0 l.

(** Source pages [cs] through [ce] (1-based, inclusive), in source order. *)
Definition page_range {Page : Type} (pdf : list Page) (cs ce : Z) : list Page :=
  firstn (Z.to_nat (ce - cs + 1)) (skipn (Z.to_nat (cs - 1)) pdf).

(** The start and end indices [splitPDF] computes for method [range]. *)
Definition range_start (o : SplitOptions) : Z :=
  Z.max 1 (or_default (start o) 1) - 1.

Definition range_end (N : Z) (o : SplitOptions) : Z :=
  Z.min N (or_default (end_ o) N) - 1.

Definition selection_missing (o : SplitOptions) : Prop :=
  selectedPages o = None \/ selectedPages o = Some [].

Definition known_method (m : string) : Prop :=
  m = "all" \/ m = "range" \/ m = "custom".

(** The name [splitPDF] gives the file of page index [k] for method [all]. *)
Definition page_file_name (file : File) (k : nat) : string :=
  ((strip_extension (name file) ++ "_pages_" ++ Z_to_string (Z.of_nat k + 1))
     ++ ".pdf")%string.

(** The name [splitPDF] gives the file of pages [first] to [last] for
    method [range]. *)
Definition range_file_name (file : File) (first last : Z) : string :=
  ((strip_extension (name file) ++ "_pages_" ++ Z_to_string first ++ "-"
      ++ Z_to_string last) ++ ".pdf")%string.

(** [s] does not hold the code unit [c]. *)
Definition lacks (c : N) (s : ustring) : bool :=
  forallb (fun d => negb (d =? c)%N) s.

(** [s] holds no line end. *)
Definition one_line (s : ustring) : bool :=
  forallb (fun d => negb (is_line_end d)) s.

(** The text [scheme:mime;params,payload], and what makes it read back as
    these four parts: no comma before the payload or in it, no colon in the
    scheme, no semicolon or line end in the media type. *)
Definition data_url_text (scheme mime params payload : ustring) : ustring :=
  scheme ++ 58%N :: mime ++ 59%N :: params ++ 44%N :: payload.

Definition data_url_parts (scheme mime params payload : ustring) : bool :=
  lacks 58 scheme && lacks 44 scheme
  && lacks 59 mime && lacks 44 mime && one_line mime
  && lacks 44 params && lacks 44 payload.

(** The document that [PDFDocument_save] writes for [doc]. *)
Definition written_document {Page : Type} (blank : Page) (doc : list Page)
  : list Page :=
  match doc with
  | [] => [blank]
  | _ :: _ => doc
  end.

(** The pages of the thumbnails among the nodes, and the number of pages the
    "more" notes stand for. *)
Fixpoint shown_pages (nodes : list ThumbNode) : list Z :=
  match nodes with
  | [] => []
  | page_thumbnail k :: rest => k :: shown_pages rest
  | _ :: rest => shown_pages rest
  end.

Fixpoint hidden_pages (nodes : list ThumbNode) : Z :=
  match nodes with
  | [] => 0
  | page_more h :: rest => h + hidden_pages rest
  | _ :: rest => hidden_pages rest
  end.

(** A name without any dot. *)
Fixpoint no_dot (s : string) : bool :=
  match s with
  | EmptyString => true
  | String c rest => negb (is_dot c) && no_dot rest
  end.


(** ** A small instance of the libraries

    A toy document format in which every byte is a page and a zero byte
    makes a file undecodable; a toy image decoder that reads the natural
    size from the first two bytes. Used to run the functions on examples. *)

Module Demo.

Definition Page : Type := byte.

Definition load (bytes : Bytes) : result (list Page) :=
  if existsb (Byte.eqb x00) bytes
  then Err (LibraryError "Failed to parse PDF document")
  else Ok bytes.

Definition save (doc : list Page) : Bytes := doc.

Definition pdf_file (n : string) (doc : list Page) : File :=
  mkFile doc n "application/pdf".

(** A two-page, a three-page and a broken document. *)
Definition a : File := pdf_file "a.pdf" [x61; x62].
Definition b : File := pdf_file "b.pdf" [x63; x64; x65].
Definition broken : File := pdf_file "broken.pdf" [x61; x00].

Definition Image : Type := (float * float)%type.

Definition decode (file : File) : option Image :=
  match file_data file with
  | w :: h :: _ => Some (PrimFloat.of_uint63 (Uint63.of_Z (Z.of_nat (Byte.to_nat w))),
                         PrimFloat.of_uint63 (Uint63.of_Z (Z.of_nat (Byte.to_nat h))))
  | _ => None
  end.

(** A canvas without pixels encodes to [data:,]; any other to one byte. *)
Definition toDataURL (c : Canvas Image) (mime : string) (quality : float) : ustring :=
  if truthy (canvas_width c) && truthy (canvas_height c)
  then ustr ("data:" ++ mime ++ ";base64,Kg==")
  else ustr "data:,".

Fixpoint ustring_eqb (x y : ustring) : bool :=
  match x, y with
  | [], [] => true
  | c :: x', d :: y' => (c =? d)%N && ustring_eqb x' y'
  | _, _ => false
  end.

(** An [atob] that knows two payloads. *)
Definition atob (s : ustring) : result ustring :=
  if ustring_eqb s (ustr "Kg==") then Ok [42%N]
  else if ustring_eqb s (ustr "Zm9v") then Ok (ustr "foo")
  else Err (LibraryError "InvalidCharacterError").

(** A printer for whole numbers; any other number prints as [?]. *)
Definition Number_toString (v : jsnum) : string :=
  match v with
  | Some x =>
      match Prim2SF x with
      | S754_zero _ => "0"
      | S754_finite s m e =>
          let z := if s then Z.neg m else Z.pos m in
          if 0 <=? e then Z_to_string (z * 2 ^ e)
          else if Z.pos m mod 2 ^ (- e) =? 0 then Z_to_string (z / 2 ^ (- e))
          else "?"
      | _ => "?"
      end
  | None => "undefined"
  end.

(** Lower case for the letters A to Z. *)
Definition toLowerCase (s : string) : string :=
  string_of_list_ascii
    (map (fun c => ascii_of_N (ascii_lower_unit (N_of_ascii c))) (list_ascii_of_string s)).

Definition photo : File := mkFile [xfa; x78] "photo.final.PNG" "image/png".
Definition flat : File := mkFile [x00; x78] "flat.svg" "image/svg+xml".
Definition not_an_image : File := mkFile [] "notes.txt" "text/plain".

(** The page [addPage()] makes, and a writer. *)
Definition blank : Page := x20.
Definition serialize (doc : list Page) : Bytes := doc.

End Demo.

(** * Properties *)

(** ** Lists, indices and the outcome monad *)

Section Basics.

Context {A B : Type}.

(** A failure of [mapM] is the failure of one of the calls. *)
Lemma mapM_Err_inv (f : A -> result B) (l : list A) (e : JsError) :
  mapM f l = Err e -> exists x, In x l /\ f x = Err e.
Proof.
  induction l as [|x l IH]; simpl; intros H.
  - discriminate.
  - destruct (f x) as [y|e'] eqn:Hx; simpl in H.
    + destruct (mapM f l) as [zs|e''] eqn:Hl; simpl in H; [discriminate|].
      injection H as ->. destruct (IH eq_refl) as (x' & Hin & Hx').
      exists x'. auto.
    + injection H as ->. exists x. auto.
Qed.

Lemma skipn_nth_error (l : list A) (a : nat) :
  (a < List.length l)%nat ->
  exists p, nth_error l a = Some p /\ skipn a l = p :: skipn (S a) l.
Proof.
  revert a. induction l as [|x l IH]; simpl; intros a Ha.
  - lia.
  - destruct a as [|a].
    + exists x. split; reflexivity.
    + destruct (IH a) as (p & H1 & H2); [lia|].
      exists p. simpl. split; assumption.
Qed.

Lemma Array_get_of_nat (l : list A) (a : nat) :
  Array_get l (Z.of_nat a) = nth_error l a.
Proof.
  unfold Array_get.
  destruct (Z.of_nat a <? 0) eqn:H.
  - apply Z.ltb_lt in H. lia.
  - rewrite Nat2Z.id. reflexivity.
Qed.

Lemma Array_get_in_bounds (l : list A) (i : Z) :
  0 <= i < Z.of_nat (List.length l) -> exists p, Array_get l i = Some p.
Proof.
  intros Hi. unfold Array_get.
  destruct (i <? 0) eqn:H; [apply Z.ltb_lt in H; lia|].
  destruct (nth_error l (Z.to_nat i)) as [p|] eqn:Hn.
  - exists p. reflexivity.
  - apply nth_error_None in Hn. lia.
Qed.

End Basics.

(** [Array.from] with an offset enumerates consecutive integers. *)
Lemma offsets_seq (s : Z) (n b : nat) :
  0 <= s ->
  map (fun i => s + Z.of_nat i) (seq b n) = map Z.of_nat (seq (Z.to_nat s + b) n).
Proof.
  intros Hs. revert b. induction n as [|n IH]; intros b; simpl.
  - reflexivity.
  - f_equal.
    + lia.
    + rewrite IH. f_equal. f_equal. lia.
Qed.

Lemma Array_from_offset (s len : Z) :
  0 <= s ->
  Array_from len (fun i => s + i) = map Z.of_nat (seq (Z.to_nat s) (Z.to_nat len)).
Proof.
  intros Hs. unfold Array_from. rewrite offsets_seq by assumption.
  rewrite Nat.add_0_r. reflexivity.
Qed.

Lemma Array_from_length {A : Type} (len : Z) (f : Z -> A) :
  List.length (Array_from len f) = Z.to_nat len.
Proof. unfold Array_from. rewrite length_map, length_seq. reflexivity. Qed.

Lemma Array_get_Array_from {A : Type} (len : Z) (f : Z -> A) (i : Z) :
  0 <= i < len -> Array_get (Array_from len f) i = Some (f i).
Proof.
  intros Hi. unfold Array_get, Array_from.
  destruct (i <? 0) eqn:H; [apply Z.ltb_lt in H; lia|].
  rewrite nth_error_map.
  rewrite nth_error_seq.
  destruct (Nat.ltb (Z.to_nat i) (Z.to_nat len)) eqn:Hlt.
  - simpl. rewrite Z2Nat.id by lia. reflexivity.
  - apply Nat.ltb_ge in Hlt. lia.
Qed.

(** ** Sorting with [(a, b) => a - b] *)

Lemma sort_insert_perm (x : Z) (l : list Z) :
  Permutation (x :: l) (sort_insert by_difference x l).
Proof.
  induction l as [|y l IH]; simpl.
  - apply Permutation_refl.
  - destruct (by_difference x y <=? 0).
    + apply Permutation_refl.
    + eapply perm_trans; [apply perm_swap|]. apply perm_skip. exact IH.
Qed.

Lemma Array_sort_perm (l : list Z) :
  Permutation l (Array_sort by_difference l).
Proof.
  induction l as [|x l IH]; simpl.
  - constructor.
  - eapply perm_trans; [apply perm_skip; exact IH|]. apply sort_insert_perm.
Qed.

Lemma sort_insert_hd (x a : Z) (l : list Z) :
  a <= x -> HdRel Z.le a l -> HdRel Z.le a (sort_insert by_difference x l).
Proof.
  intros Hax Hl. destruct l as [|y l]; simpl.
  - constructor. exact Hax.
  - destruct (by_difference x y <=? 0); constructor.
    + exact Hax.
    + inversion Hl; assumption.
Qed.

Lemma sort_insert_sorted (x : Z) (l : list Z) :
  Sorted Z.le l -> Sorted Z.le (sort_insert by_difference x l).
Proof.
  induction 1 as [|y l Hs IH Hhd]; simpl.
  - repeat constructor.
  - unfold by_difference at 1.
    destruct (x - y <=? 0) eqn:Hc.
    + apply Z.leb_le in Hc. constructor.
      * constructor; assumption.
      * constructor. lia.
    + apply Z.leb_gt in Hc. constructor.
      * exact IH.
      * apply sort_insert_hd; [lia | assumption].
Qed.

Lemma Array_sort_sorted (l : list Z) :
  Sorted Z.le (Array_sort by_difference l).
Proof.
  induction l as [|x l IH]; simpl.
  - constructor.
  - apply sort_insert_sorted. exact IH.
Qed.

(** A list has one sorted arrangement, so any sort that [Array.prototype.sort]
    may run returns the list [Array_sort] computes. *)
Lemma sorted_perm_unique (l1 l2 : list Z) :
  Sorted Z.le l1 -> Sorted Z.le l2 -> Permutation l1 l2 -> l1 = l2.
Proof.
  intros H1 H2.
  apply (Sorted_StronglySorted Z.le_trans) in H1.
  apply (Sorted_StronglySorted Z.le_trans) in H2.
  revert l2 H2. induction H1 as [|x l1 Hs1 IH Hall1]; intros l2 H2 Hp.
  - apply Permutation_nil in Hp. subst l2. reflexivity.
  - destruct H2 as [|y l2 Hs2 Hall2].
    + apply Permutation_sym, Permutation_nil in Hp. discriminate.
    + assert (Hxy : x = y).
      { assert (Hx : In x (y :: l2))
          by (eapply Permutation_in; [exact Hp | left; reflexivity]).
        assert (Hy : In y (x :: l1))
          by (eapply Permutation_in;
              [apply Permutation_sym; exact Hp | left; reflexivity]).
        rewrite Forall_forall in Hall1, Hall2.
        destruct Hx as [Hx|Hx]; [congruence|].
        destruct Hy as [Hy|Hy]; [congruence|].
        apply Hall2 in Hx. apply Hall1 in Hy. lia. }
      subst y. f_equal. apply IH; [exact Hs2|].
      eapply Permutation_cons_inv. exact Hp.
Qed.

Lemma Array_sort_canonical (l sorted : list Z) :
  Permutation l sorted -> Sorted Z.le sorted -> sorted = Array_sort by_difference l.
Proof.
  intros Hp Hs. apply sorted_perm_unique.
  - exact Hs.
  - apply Array_sort_sorted.
  - eapply perm_trans; [apply Permutation_sym; exact Hp | apply Array_sort_perm].
Qed.

(** Consecutive integers are in order and distinct. *)
Lemma consecutive_sorted (a n : nat) :
  Sorted Z.le (map Z.of_nat (seq a n)).
Proof.
  revert a. induction n as [|n IH]; intros a; simpl.
  - constructor.
  - constructor.
    + apply IH.
    + destruct n; simpl; constructor. lia.
Qed.

Lemma consecutive_NoDup (a n : nat) :
  NoDup (map Z.of_nat (seq a n)).
Proof.
  apply Finite.Injective_map_NoDup.
  - intros x y Hxy. lia.
  - apply seq_NoDup.
Qed.

Lemma pred_map_NoDup (l : list Z) :
  NoDup (map (fun p => p - 1) l) <-> NoDup l.
Proof.
  split.
  - apply NoDup_map_inv.
  - apply Finite.Injective_map_NoDup. intros x y Hxy. lia.
Qed.

(** ** PDFTools: copying pages *)

Lemma try_catch_rethrow {A : Type} (r : result A) : try_catch r rethrow = r.
Proof. destruct r; reflexivity. Qed.

Section PDFFacts.

Context {Page : Type}.
Variable load : Bytes -> result (list Page).
Variable save : list Page -> Bytes.
Variable serialize : list Page -> Bytes.
Variable blank : Page.

Lemma PDFDocument_save_written (doc : list Page) :
  PDFDocument_save serialize blank doc = serialize (written_document blank doc).
Proof. destruct doc; reflexivity. Qed.

Lemma written_document_pages (doc : list Page) :
  doc <> [] -> written_document blank doc = doc.
Proof. destruct doc; [contradiction | reflexivity]. Qed.

Lemma addPages_app (doc copied : list Page) :
  addPages doc copied = doc ++ copied.
Proof.
  unfold addPages. revert doc.
  induction copied as [|p copied IH]; intros doc; simpl.
  - rewrite app_nil_r. reflexivity.
  - rewrite IH. unfold addPage. rewrite <- app_assoc. reflexivity.
Qed.

Lemma copyPage_of_nat (pdf : list Page) (a : nat) (p : Page) :
  nth_error pdf a = Some p -> copyPage pdf (Z.of_nat a) = Ok p.
Proof.
  intros H. unfold copyPage. rewrite Array_get_of_nat, H. reflexivity.
Qed.

Lemma copyPages_consecutive (pdf : list Page) (n a : nat) :
  (a + n <= List.length pdf)%nat ->
  copyPages pdf (map Z.of_nat (seq a n)) = Ok (firstn n (skipn a pdf)).
Proof.
  unfold copyPages. revert a.
  induction n as [|n IH]; intros a Ha; simpl.
  - reflexivity.
  - destruct (skipn_nth_error pdf a) as (p & Hp & Hs); [lia|].
    rewrite (copyPage_of_nat _ _ _ Hp). simpl.
    rewrite IH by lia. simpl. rewrite Hs. reflexivity.
Qed.

Lemma getPageIndices_seq (pdf : list Page) :
  getPageIndices pdf = map Z.of_nat (seq 0 (List.length pdf)).
Proof.
  unfold getPageIndices, Array_from, getPageCount.
  rewrite Nat2Z.id. reflexivity.
Qed.

(** Copying every page index of a document yields its pages, in order. *)
Lemma copyPages_all (pdf : list Page) :
  copyPages pdf (getPageIndices pdf) = Ok pdf.
Proof.
  rewrite getPageIndices_seq, copyPages_consecutive by lia.
  simpl. rewrite firstn_all. reflexivity.
Qed.

(** A failed copy is a [TypeError], never an [Error] of this file. *)
Lemma copyPages_Err (pdf : list Page) (indices : list Z) (e : JsError) :
  copyPages pdf indices = Err e -> exists msg, e = TypeError msg.
Proof.
  intros H. apply mapM_Err_inv in H. destruct H as (i & _ & Hi).
  unfold copyPage in Hi. destruct (Array_get pdf i); [discriminate|].
  injection Hi as <-. eexists. reflexivity.
Qed.

Lemma copyPages_in_bounds (pdf : list Page) (indices : list Z) :
  Forall (fun i => 0 <= i < getPageCount pdf) indices ->
  exists copied, copyPages pdf indices = Ok copied
    /\ Forall2 (fun i p => Array_get pdf i = Some p) indices copied.
Proof.
  unfold copyPages. induction 1 as [|i l Hi _ IH]; simpl.
  - exists []. split; [reflexivity | constructor].
  - destruct IH as (copied & Hc & Hf).
    destruct (Array_get_in_bounds pdf i Hi) as (p & Hp).
    exists (p :: copied). unfold copyPage at 1. rewrite Hp. simpl.
    rewrite Hc. simpl. split; [reflexivity | constructor; assumption].
Qed.

(** ** [mergePDFs] *)

Lemma merge_loop_decodable (fs : list File) (docs : list (list Page)) :
  Forall2 (fun f d => load (arrayBuffer f) = Ok d) fs docs ->
  forall acc total,
    merge_loop load fs acc total
    = Ok (acc ++ List.concat docs, total + Zsum (map getPageCount docs)).
Proof.
  induction 1 as [|f d fs docs Hf _ IH]; intros acc total; simpl.
  - rewrite app_nil_r, Z.add_0_r. reflexivity.
  - rewrite Hf. simpl. rewrite copyPages_all. simpl.
    rewrite IH, addPages_app, <- app_assoc, Z.add_assoc. reflexivity.
Qed.

Lemma merge_loop_undecodable (fs : list File) (f : File) (e : JsError) :
  In f fs -> load (arrayBuffer f) = Err e ->
  forall acc total, exists e', merge_loop load fs acc total = Err e'.
Proof.
  induction fs as [|g fs IH]; intros Hin He acc total; simpl.
  - contradiction.
  - destruct (load (arrayBuffer g)) as [pdf|e0] eqn:Hg; simpl.
    + rewrite copyPages_all. simpl.
      destruct Hin as [->|Hin]; [congruence|].
      apply IH; assumption.
    + exists e0. reflexivity.
Qed.

Lemma getPageCount_concat (docs : list (list Page)) :
  getPageCount (List.concat docs) = Zsum (map getPageCount docs).
Proof.
  unfold getPageCount. induction docs as [|d docs IH]; simpl.
  - reflexivity.
  - rewrite length_app, Nat2Z.inj_add, IH. reflexivity.
Qed.

(** What [mergePDFs] returns when every source decodes, for any [save]. *)
Lemma mergePDFs_decodable (sv : list Page -> Bytes) (fs : list File)
    (docs : list (list Page)) :
  Forall2 (fun f d => load (arrayBuffer f) = Ok d) fs docs ->
  mergePDFs load sv fs
  = Ok (mkMergeResult (mkBlob (sv (List.concat docs)) "application/pdf")
          (Z.of_nat (List.length (sv (List.concat docs))))
          (Zsum (map getPageCount docs))).
Proof.
  intros Hdocs. unfold mergePDFs. rewrite try_catch_rethrow.
  rewrite (merge_loop_decodable _ _ Hdocs). reflexivity.
Qed.

(** C1 (amended). When every source decodes, [mergePDFs] resolves and
    reports the sum of the sources' page counts. The document it returns,
    as the library reads it back, holds the sources' pages, each source's in
    their own order and the sources in input order, when there is at least
    one page; its page count is then the total reported. When the sources
    have no page between them the returned document holds one blank page,
    the one [save] adds, and the total reported is 0. When some source does
    not decode the call rejects and returns no result. *)
Theorem mergePDFs_returned_document (fs : list File) :
  (forall docs n t,
      Forall2 (fun f d => load (arrayBuffer f) = Ok d) fs docs ->
      load (serialize (written_document blank (List.concat docs)))
      = Ok (written_document blank (List.concat docs)) ->
      exists r,
        mergePDFs load (PDFDocument_save serialize blank) fs = Ok r
        /\ pages r = Zsum (map getPageCount docs)
        /\ load (arrayBuffer (new_File (blob r) n t))
           = Ok (written_document blank (List.concat docs))
        /\ (List.concat docs <> [] ->
            load (arrayBuffer (new_File (blob r) n t)) = Ok (List.concat docs)
            /\ getPDFPageCount load (new_File (blob r) n t) = Ok (pages r))
        /\ (List.concat docs = [] ->
            load (arrayBuffer (new_File (blob r) n t)) = Ok [blank]
            /\ getPDFPageCount load (new_File (blob r) n t) = Ok 1
            /\ pages r = 0))
  /\ (forall f e,
        In f fs -> load (arrayBuffer f) = Err e ->
        exists e', mergePDFs load (PDFDocument_save serialize blank) fs = Err e').
Proof.
  split.
  - intros docs n t Hdocs Hrt.
    eexists. split; [apply (mergePDFs_decodable _ fs docs Hdocs)|].
    cbn [pages blob new_File arrayBuffer file_data blob_data].
    rewrite PDFDocument_save_written.
    split; [reflexivity|]. split; [exact Hrt|]. split.
    + intros Hne. rewrite (written_document_pages _ Hne) in *.
      split; [exact Hrt|].
      unfold getPDFPageCount, arrayBuffer, new_File.
      cbn [file_data blob_data]. rewrite Hrt.
      cbn [bind try_catch]. rewrite getPageCount_concat. reflexivity.
    + intros Hnil. rewrite Hnil in *. cbn [written_document] in *.
      split; [exact Hrt|]. split.
      * unfold getPDFPageCount, arrayBuffer, new_File.
        cbn [file_data blob_data]. rewrite Hrt. reflexivity.
      * rewrite <- getPageCount_concat, Hnil. reflexivity.
  - intros f e Hin He. unfold mergePDFs. rewrite try_catch_rethrow.
    destruct (merge_loop_undecodable fs f e Hin He create 0) as (e' & He').
    exists e'. rewrite He'. reflexivity.
Qed.

(** C10 (amended). On no files at all [mergePDFs] resolves and reports
    zero pages; the document it returns is the one [save] writes for a
    document without pages, which holds one blank page: read back, its page
    count is 1. *)
Theorem mergePDFs_empty_has_blank_page (n t : string) :
  load (serialize [blank]) = Ok [blank] ->
  exists r,
    mergePDFs load (PDFDocument_save serialize blank) [] = Ok r
    /\ pages r = 0
    /\ blob r = mkBlob (serialize [blank]) "application/pdf"
    /\ size r = Z.of_nat (List.length (serialize [blank]))
    /\ load (arrayBuffer (new_File (blob r) n t)) = Ok [blank]
    /\ getPDFPageCount load (new_File (blob r) n t) = Ok 1.
Proof.
  intros Hrt.
  exists (mkMergeResult (mkBlob (serialize [blank]) "application/pdf")
            (Z.of_nat (List.length (serialize [blank]))) 0).
  split; [reflexivity|].
  split; [reflexivity|]. split; [reflexivity|]. split; [reflexivity|].
  split; [exact Hrt|].
  unfold getPDFPageCount, arrayBuffer, new_File. cbn [file_data blob_data blob].
  rewrite Hrt. reflexivity.
Qed.

(** ** [splitPDF] *)

Lemma splitPDF_decoded (file : File) (pdf : list Page) (m : string) (o : SplitOptions) :
  load (arrayBuffer file) = Ok pdf ->
  splitPDF load save file m o
  = (pageIndices <- pageIndices_of (getPageCount pdf) m o ;;
     splitFiles <- mapM (split_one save file pdf m pageIndices) pageIndices ;;
     Ok (mkSplitResult splitFiles (getPageCount pdf))).
Proof.
  intros H. unfold splitPDF. rewrite try_catch_rethrow, H. reflexivity.
Qed.

Lemma split_one_copied (file : File) (pdf : list Page) (m : string)
    (PI : list (list Z)) (indices : list Z) (copied : list Page) :
  copyPages pdf indices = Ok copied ->
  split_one save file pdf m PI indices
  = Ok (mkFile (save copied) (split_name file m PI indices) "application/pdf").
Proof.
  intros H. unfold split_one. rewrite H. simpl.
  rewrite addPages_app. reflexivity.
Qed.

Lemma split_one_Err (file : File) (pdf : list Page) (m : string)
    (PI : list (list Z)) (indices : list Z) (e : JsError) :
  split_one save file pdf m PI indices = Err e -> exists msg, e = TypeError msg.
Proof.
  unfold split_one. destruct (copyPages pdf indices) as [c|e'] eqn:Hc; simpl.
  - discriminate.
  - intros H. injection H as <-. eapply copyPages_Err. exact Hc.
Qed.

(** The loop over the singletons of method [all], from page index [a] on. *)
Lemma split_singletons (file : File) (pdf : list Page) (m : string)
    (PI : list (list Z)) (n a : nat) :
  (a + n = List.length pdf)%nat ->
  exists outs,
    mapM (split_one save file pdf m PI) (map (fun i => [Z.of_nat i]) (seq a n)) = Ok outs
    /\ Forall2 (fun p f => file_data f = save [p]) (skipn a pdf) outs.
Proof.
  revert a. induction n as [|n IH]; intros a Ha; simpl.
  - exists []. split; [reflexivity|].
    rewrite skipn_all2 by lia. constructor.
  - destruct (skipn_nth_error pdf a) as (p & Hp & Hs); [lia|].
    destruct (IH (S a)) as (outs & Ho & Hf); [lia|].
    rewrite (split_one_copied file pdf m PI [Z.of_nat a] [p]).
    + simpl. rewrite Ho. simpl. eexists. split; [reflexivity|].
      rewrite Hs. constructor; [reflexivity | exact Hf].
    + unfold copyPages. simpl. rewrite (copyPage_of_nat _ _ _ Hp). reflexivity.
Qed.

(** C3. Method [all] on an N-page document gives N output files, and the
    k-th holds the document made of the k-th source page alone. *)
Theorem splitPDF_all_singletons (file : File) (pdf : list Page) (o : SplitOptions) :
  load (arrayBuffer file) = Ok pdf ->
  exists outs,
    splitPDF load save file "all" o = Ok (mkSplitResult outs (getPageCount pdf))
    /\ List.length outs = List.length pdf
    /\ Forall2 (fun p f => file_data f = save [p]) pdf outs.
Proof.
  intros Hload. rewrite (splitPDF_decoded _ _ _ _ Hload).
  change (pageIndices_of (getPageCount pdf) "all" o)
    with (Ok (A := list (list Z)) (Array_from (getPageCount pdf) (fun i => [i]))).
  cbn [bind].
  unfold Array_from at 2, getPageCount at 2. rewrite Nat2Z.id.
  destruct (split_singletons file pdf "all"
              (Array_from (getPageCount pdf) (fun i => [i]))
              (List.length pdf) 0 eq_refl) as (outs & Ho & Hf).
  rewrite Ho. cbn [bind]. exists outs. simpl in Hf.
  split; [reflexivity|]. split; [|exact Hf].
  symmetry. eapply Forall2_length. exact Hf.
Qed.

Lemma page_range_length (pdf : list Page) (cs ce : Z) :
  1 <= cs -> cs <= ce -> ce <= getPageCount pdf ->
  Z.of_nat (List.length (page_range pdf cs ce)) = ce - cs + 1.
Proof.
  unfold page_range, getPageCount. intros H1 H2 H3.
  rewrite firstn_length_le; [lia|]. rewrite length_skipn. lia.
Qed.

Lemma page_range_get (pdf : list Page) (cs ce k : Z) :
  1 <= cs -> cs <= k <= ce ->
  Array_get (page_range pdf cs ce) (k - cs) = Array_get pdf (k - 1).
Proof.
  unfold page_range, Array_get. intros H1 Hk.
  destruct (k - cs <? 0) eqn:Ha; [apply Z.ltb_lt in Ha; lia|].
  destruct (k - 1 <? 0) eqn:Hb; [apply Z.ltb_lt in Hb; lia|].
  rewrite nth_error_firstn.
  destruct (Nat.ltb (Z.to_nat (k - cs)) (Z.to_nat (ce - cs + 1))) eqn:Hlt.
  - rewrite nth_error_skipn. f_equal. lia.
  - apply Nat.ltb_ge in Hlt. lia.
Qed.

(** The index set of method [range] once the bounds are in order. *)
Lemma pageIndices_of_range (N s e : Z) (sel : option (list Z)) :
  Z.max 1 s <= Z.min N e ->
  pageIndices_of N "range" (mkSplitOptions (Some s) (Some e) sel)
  = Ok [Array_from (Z.min N e - Z.max 1 s + 1) (fun i => Z.max 1 s - 1 + i)].
Proof.
  intros H. unfold pageIndices_of. simpl.
  assert (Hs : Z.max 1 (if s =? 0 then 1 else s) = Z.max 1 s).
  { destruct (s =? 0) eqn:E; [apply Z.eqb_eq in E; lia | reflexivity]. }
  assert (He : (if e =? 0 then N else e) = e).
  { destruct (e =? 0) eqn:E; [apply Z.eqb_eq in E; lia | reflexivity]. }
  rewrite Hs, He.
  destruct (Z.max 1 s - 1 >? Z.min N e - 1) eqn:Hgt.
  - apply Z.gtb_lt in Hgt. lia.
  - do 3 f_equal. lia.
Qed.

(** C2. Method [range] with bounds that are in order after clamping gives
    one output file: the document of the source pages from the clamped start
    through the clamped end, in source order, which are (clamped end - clamped
    start + 1) pages; the file name carries the two bounds. *)
Theorem splitPDF_range_pages (file : File) (pdf : list Page) (s e : Z)
    (sel : option (list Z)) :
  load (arrayBuffer file) = Ok pdf ->
  Z.max 1 s <= Z.min (getPageCount pdf) e ->
  splitPDF load save file "range" (mkSplitOptions (Some s) (Some e) sel)
  = Ok (mkSplitResult
          [mkFile (save (page_range pdf (Z.max 1 s) (Z.min (getPageCount pdf) e)))
                  ((strip_extension (name file) ++ "_pages_"
                      ++ Z_to_string (Z.max 1 s) ++ "-"
                      ++ Z_to_string (Z.min (getPageCount pdf) e)) ++ ".pdf")%string
                  "application/pdf"]
          (getPageCount pdf))
  /\ Z.of_nat (List.length (page_range pdf (Z.max 1 s) (Z.min (getPageCount pdf) e)))
     = Z.min (getPageCount pdf) e - Z.max 1 s + 1
  /\ (forall k, Z.max 1 s <= k <= Z.min (getPageCount pdf) e ->
        Array_get (page_range pdf (Z.max 1 s) (Z.min (getPageCount pdf) e)) (k - Z.max 1 s)
        = Array_get pdf (k - 1)).
Proof.
  intros Hload Hord.
  set (N := getPageCount pdf) in *.
  set (cs := Z.max 1 s) in *. set (ce := Z.min N e) in *.
  assert (Hcs : 1 <= cs) by (unfold cs; lia).
  assert (Hce : ce <= N) by (unfold ce; lia).
  split; [|split].
  - rewrite (splitPDF_decoded _ _ _ _ Hload). fold N.
    unfold cs, ce in Hord. rewrite (pageIndices_of_range N s e sel Hord).
    fold cs ce. cbn [bind mapM].
    set (indices := Array_from (ce - cs + 1) (fun i => cs - 1 + i)).
    assert (Hcopy : copyPages pdf indices = Ok (page_range pdf cs ce)).
    { unfold indices. rewrite Array_from_offset by lia.
      rewrite copyPages_consecutive.
      - unfold page_range. reflexivity.
      - unfold N, getPageCount in Hce. lia. }
    rewrite (split_one_copied _ _ _ _ _ _ Hcopy). cbn [bind].
    unfold split_name.
    change (1 <? Z.of_nat (List.length [indices])) with false.
    cbn [orb String.eqb Ascii.eqb Bool.eqb].
    assert (H0 : Array_get indices 0 = Some (cs - 1)).
    { unfold indices. rewrite Array_get_Array_from by lia. f_equal. lia. }
    assert (Hl : Array_get indices (Z.of_nat (List.length indices) - 1) = Some (ce - 1)).
    { unfold indices. rewrite Array_from_length, Z2Nat.id by lia.
      rewrite Array_get_Array_from by lia. f_equal. lia. }
    rewrite H0, Hl. unfold show_succ.
    replace (cs - 1 + 1) with cs by lia. replace (ce - 1 + 1) with ce by lia.
    reflexivity.
  - apply page_range_length; assumption.
  - intros k Hk. apply page_range_get; assumption.
Qed.

(** The index set of method [custom] on a selection that is not empty. *)
Lemma pageIndices_of_custom (N : Z) (s e : option Z) (sel : list Z) :
  sel <> [] ->
  pageIndices_of N "custom" (mkSplitOptions s e (Some sel))
  = Ok [Array_sort by_difference (map (fun p => p - 1) sel)].
Proof.
  intros Hsel. unfold pageIndices_of. simpl.
  destruct sel; [contradiction | reflexivity].
Qed.

Lemma Array_get_nth_error (pdf : list Page) (i : Z) (p : Page) :
  Array_get pdf i = Some p -> 0 <= i /\ nth_error pdf (Z.to_nat i) = Some p.
Proof.
  unfold Array_get. destruct (i <? 0) eqn:H; [discriminate|].
  apply Z.ltb_ge in H. auto.
Qed.

(** C5. Method [custom] on a selection of page numbers of the document that
    is not empty gives one output file: the document whose pages are the
    source pages at the selected positions, taken in ascending order of
    position whatever the order of the selection. The positions are the
    sorted rearrangement of the selected numbers less one, and the k-th page
    of the output is the page of the source list at the k-th position. *)
Theorem splitPDF_custom_sorted (file : File) (pdf : list Page) (s e : option Z)
    (sel : list Z) :
  load (arrayBuffer file) = Ok pdf ->
  sel <> [] ->
  Forall (fun p => 1 <= p <= getPageCount pdf) sel ->
  exists indices copied,
    splitPDF load save file "custom" (mkSplitOptions s e (Some sel))
    = Ok (mkSplitResult
            [mkFile (save copied) (strip_extension (name file) ++ ".pdf")%string
                    "application/pdf"]
            (getPageCount pdf))
    /\ Permutation (map (fun p => p - 1) sel) indices
    /\ Sorted Z.le indices
    /\ Forall2 (fun i p => 0 <= i /\ nth_error pdf (Z.to_nat i) = Some p)
         indices copied.
Proof.
  intros Hload Hsel Hin.
  set (indices := Array_sort by_difference (map (fun p => p - 1) sel)).
  assert (Hperm : Permutation (map (fun p => p - 1) sel) indices)
    by apply Array_sort_perm.
  assert (Hb : Forall (fun i => 0 <= i < getPageCount pdf) indices).
  { eapply Permutation_Forall; [exact Hperm|].
    apply Forall_map. eapply Forall_impl; [|exact Hin].
    simpl. intros p Hp. lia. }
  destruct (copyPages_in_bounds pdf indices Hb) as (copied & Hc & Hf).
  exists indices, copied. split; [|split; [|split]].
  - rewrite (splitPDF_decoded _ _ _ _ Hload).
    rewrite (pageIndices_of_custom _ _ _ _ Hsel). fold indices.
    cbn [bind mapM].
    rewrite (split_one_copied _ _ _ _ _ _ Hc). reflexivity.
  - exact Hperm.
  - apply Array_sort_sorted.
  - eapply Forall2_impl; [|exact Hf].
    intros i p Hip. apply Array_get_nth_error. exact Hip.
Qed.

(** They are the bounds [max(1, start) - 1] and [min(N, end) - 1] whenever
    both numbers are given and the end is not 0. *)
Lemma range_bounds_given (N s e : Z) (sel : option (list Z)) :
  e <> 0 ->
  range_start (mkSplitOptions (Some s) (Some e) sel) = Z.max 1 s - 1
  /\ range_end N (mkSplitOptions (Some s) (Some e) sel) = Z.min N e - 1.
Proof.
  intros He. unfold range_start, range_end. simpl.
  destruct (s =? 0) eqn:Es; destruct (e =? 0) eqn:Ee;
    try apply Z.eqb_eq in Es; try apply Z.eqb_eq in Ee; split; lia.
Qed.

(** An end of 0, like an absent one, stands for the last page. *)
Lemma range_end_zero (N : Z) (s : option Z) (sel : option (list Z)) :
  range_end N (mkSplitOptions s (Some 0) sel) = N - 1
  /\ range_end N (mkSplitOptions s None sel) = N - 1.
Proof. unfold range_end. simpl. split; lia. Qed.

(** The three ways the [switch] throws, and the only ones. *)
Lemma pageIndices_of_Err (N : Z) (m : string) (o : SplitOptions) (e : JsError) :
  pageIndices_of N m o = Err e <->
  (m = "range" /\ range_start o > range_end N o /\ e = Error "Invalid page range")
  \/ (m = "custom" /\ selection_missing o /\ e = Error "No pages selected")
  \/ (~ known_method m /\ e = Error "Invalid split method").
Proof.
  unfold pageIndices_of, known_method, selection_missing.
  fold (range_start o). fold (range_end N o).
  destruct (String.eqb_spec m "all") as [->|Hall].
  { split; [discriminate|].
    intros [(H & _)|[(H & _)|(H & _)]]; try discriminate. exfalso. auto. }
  destruct (String.eqb_spec m "range") as [->|Hrange].
  { destruct (range_start o >? range_end N o) eqn:Hgt.
    - apply Z.gtb_lt in Hgt. split.
      + intros [= <-]. left. repeat split. lia.
      + intros [(_ & _ & ->)|[(H & _)|(H & _)]];
          [reflexivity | discriminate | exfalso; auto].
    - assert (~ range_start o > range_end N o).
      { intros Hc. apply Z.gt_lt in Hc. apply Z.gtb_lt in Hc. congruence. }
      split; [discriminate|].
      intros [(_ & Hc & _)|[(Hm & _)|(Hm & _)]];
        [contradiction | discriminate | exfalso; auto]. }
  destruct (String.eqb_spec m "custom") as [->|Hcustom].
  { destruct (selectedPages o) as [[|p sel]|] eqn:Hsel.
    - split.
      + intros [= <-]. right. left. auto.
      + intros [(Hm & _)|[(_ & _ & ->)|(Hm & _)]];
          [discriminate | reflexivity | exfalso; auto].
    - split; [discriminate|].
      intros [(Hm & _)|[(_ & [Hc|Hc] & _)|(Hm & _)]];
        [discriminate | discriminate | discriminate | exfalso; auto].
    - split.
      + intros [= <-]. right. left. auto.
      + intros [(Hm & _)|[(_ & _ & ->)|(Hm & _)]];
          [discriminate | reflexivity | exfalso; auto]. }
  split.
  - intros [= <-]. right. right. split; [|reflexivity].
    intros [H|[H|H]]; contradiction.
  - intros [(Hm & _)|[(Hm & _)|(_ & ->)]]; [contradiction | contradiction | reflexivity].
Qed.

(** C4 (amended). On a document that decodes, [splitPDF] rejects with an
    [Error] of its own in exactly three cases: method [range] when the start
    index exceeds the end index, where an absent or zero start counts as 1
    and an absent or zero end counts as the page count ("Invalid page
    range"); method [custom] when the selection is absent or empty ("No
    pages selected"); and a method other than [all], [range] and [custom]
    ("Invalid split method"). No result is returned then. *)
Theorem splitPDF_invalid_parameter (file : File) (pdf : list Page) (m : string)
    (o : SplitOptions) :
  load (arrayBuffer file) = Ok pdf ->
  forall msg,
    splitPDF load save file m o = Err (Error msg) <->
    (m = "range" /\ range_start o > range_end (getPageCount pdf) o
       /\ msg = "Invalid page range")
    \/ (m = "custom" /\ selection_missing o /\ msg = "No pages selected")
    \/ (~ known_method m /\ msg = "Invalid split method").
Proof.
  intros Hload msg. rewrite (splitPDF_decoded _ _ _ _ Hload).
  destruct (pageIndices_of (getPageCount pdf) m o) as [PI|e0] eqn:HPI; cbn [bind].
  - split.
    + destruct (mapM (split_one save file pdf m PI) PI) as [outs|e1] eqn:Hm;
        cbn [bind]; [discriminate|].
      intros [= ->]. apply mapM_Err_inv in Hm. destruct Hm as (ix & _ & Hix).
      apply split_one_Err in Hix. destruct Hix as (msg' & Hix). discriminate.
    + intros Hcase.
      assert (He : pageIndices_of (getPageCount pdf) m o = Err (Error msg)).
      { apply pageIndices_of_Err.
        destruct Hcase as [(H1 & H2 & ->)|[(H1 & H2 & ->)|(H1 & ->)]]; auto 6. }
      congruence.
  - apply pageIndices_of_Err in HPI. split.
    + intros [= ->].
      destruct HPI as [(H1 & H2 & [= <-])|[(H1 & H2 & [= <-])|(H1 & [= <-])]]; auto 6.
    + intros Hcase. f_equal.
      destruct HPI as [(H1 & H2 & ->)|[(H1 & H2 & ->)|(H1 & ->)]];
        destruct Hcase as [(K1 & K2 & ->)|[(K1 & K2 & ->)|(K1 & ->)]];
        subst; try reflexivity; try discriminate;
        try (exfalso; apply K1; unfold known_method; auto; fail);
        try (exfalso; apply H1; unfold known_method; auto; fail).
Qed.

(** C9. [getPDFPageCount] always resolves: with the page count when the
    file decodes, with 0 when it does not; on that same failure [mergePDFs]
    and [splitPDF] reject with the decoder's error. *)
Theorem getPDFPageCount_soft_fail (file : File) :
  (exists n, getPDFPageCount load file = Ok n)
  /\ (forall pdf, load (arrayBuffer file) = Ok pdf ->
        getPDFPageCount load file = Ok (getPageCount pdf))
  /\ (forall e, load (arrayBuffer file) = Err e ->
        getPDFPageCount load file = Ok 0
        /\ mergePDFs load save [file] = Err e
        /\ forall m o, splitPDF load save file m o = Err e).
Proof.
  unfold getPDFPageCount.
  destruct (load (arrayBuffer file)) as [pdf|e] eqn:Hload.
  - split; [|split].
    + exists (getPageCount pdf). reflexivity.
    + intros pdf' [= <-]. reflexivity.
    + intros e He. discriminate.
  - split; [|split].
    + exists 0. reflexivity.
    + intros pdf H. discriminate.
    + intros e' [= <-]. split; [reflexivity|]. split.
      * unfold mergePDFs. simpl. rewrite Hload. reflexivity.
      * intros m o. unfold splitPDF. rewrite Hload. reflexivity.
Qed.

End PDFFacts.

(** ** The page-index sets *)

Lemma singletons_Forall (P : list Z -> Prop) (N : Z) :
  (forall i, P [i]) -> Forall P (Array_from N (fun i => [i])).
Proof.
  intros H. unfold Array_from. apply Forall_map.
  apply Forall_forall. intros i _. apply H.
Qed.

Lemma range_indices_sorted (s len : Z) :
  0 <= s -> Sorted Z.le (Array_from len (fun i => s + i)).
Proof.
  intros Hs. rewrite Array_from_offset by assumption. apply consecutive_sorted.
Qed.

Lemma range_indices_NoDup (s len : Z) :
  0 <= s -> NoDup (Array_from len (fun i => s + i)).
Proof.
  intros Hs. rewrite Array_from_offset by assumption. apply consecutive_NoDup.
Qed.

Lemma range_start_nonneg (o : SplitOptions) : 0 <= range_start o.
Proof. unfold range_start. lia. Qed.

Lemma Forall_singleton_iff {A : Type} (P : A -> Prop) (x : A) :
  Forall P [x] <-> P x.
Proof.
  split.
  - intros H. inversion H. assumption.
  - intros H. constructor; [assumption | constructor].
Qed.

(** C6 (amended). In every page-index set [splitPDF] computes the indices of
    each sequence are in non-decreasing order; there is one sequence per page
    for [all] and one sequence for [range] and for [custom]; the indices of a
    sequence are distinct for [all] and [range], and for [custom] exactly
    when the selection names no page twice. *)
Theorem pageIndices_of_invariant (N : Z) (m : string) (o : SplitOptions)
    (PI : list (list Z)) :
  0 <= N ->
  pageIndices_of N m o = Ok PI ->
  Forall (Sorted Z.le) PI
  /\ (m = "all" -> Z.of_nat (List.length PI) = N /\ Forall (@NoDup Z) PI)
  /\ (m = "range" -> List.length PI = 1%nat /\ Forall (@NoDup Z) PI)
  /\ (m = "custom" ->
        List.length PI = 1%nat
        /\ exists sel, selectedPages o = Some sel
             /\ (Forall (@NoDup Z) PI <-> NoDup sel)).
Proof.
  intros HN. unfold pageIndices_of.
  fold (range_start o). fold (range_end N o).
  destruct (String.eqb_spec m "all") as [->|Hall].
  { intros [= <-]. split; [|split; [|split]].
    - apply singletons_Forall. intros i. repeat constructor.
    - intros _. split.
      + rewrite Array_from_length. lia.
      + apply singletons_Forall. intros i. repeat constructor. intros [].
    - discriminate.
    - discriminate. }
  destruct (String.eqb_spec m "range") as [->|Hrange].
  { destruct (range_start o >? range_end N o); [discriminate|].
    intros [= <-]. pose proof (range_start_nonneg o) as H0.
    split; [|split; [|split]].
    - apply Forall_singleton_iff. apply range_indices_sorted. exact H0.
    - discriminate.
    - intros _. split; [reflexivity|].
      apply Forall_singleton_iff. apply range_indices_NoDup. exact H0.
    - discriminate. }
  destruct (String.eqb_spec m "custom") as [->|Hcustom].
  { destruct (selectedPages o) as [[|p sel]|] eqn:Hsel; try discriminate.
    intros [= <-]. split; [|split; [|split]].
    - apply Forall_singleton_iff.
      exact (Array_sort_sorted (map (fun q => q - 1) (p :: sel))).
    - discriminate.
    - discriminate.
    - intros _. split; [reflexivity|]. exists (p :: sel). split; [reflexivity|].
      rewrite Forall_singleton_iff.
      rewrite <- (pred_map_NoDup (p :: sel)).
      pose proof (Array_sort_perm (map (fun q => q - 1) (p :: sel))) as Hp.
      split; intros Hnd.
      + eapply Permutation_NoDup; [apply Permutation_sym; exact Hp | exact Hnd].
      + eapply Permutation_NoDup; [exact Hp | exact Hnd]. }
  discriminate.
Qed.

(** ** File names *)

Lemma no_dot_slash_dot (x y : string) :
  no_dot_slash (x ++ String "." y) = false.
Proof.
  induction x as [|c x IH]; simpl.
  - reflexivity.
  - rewrite IH. apply andb_false_r.
Qed.

Lemma ext_tail_dot (x y : string) :
  ext_tail (x ++ String "." y) = false.
Proof.
  destruct x as [|c x].
  - reflexivity.
  - exact (no_dot_slash_dot (String c x) y).
Qed.

(** A name [base.ext], with an extension that is not empty and holds no dot
    and no slash, is cut back to [base]. *)
Lemma strip_extension_base (base ext : string) :
  ext_tail ext = true ->
  strip_extension (base ++ String "." ext) = base.
Proof.
  intros Hext. induction base as [|c base IH]; simpl.
  - rewrite Hext. reflexivity.
  - rewrite ext_tail_dot, andb_false_r, IH. reflexivity.
Qed.

(** A name without a dot is kept whole. *)
Lemma strip_extension_no_dot (s : string) :
  no_dot s = true -> strip_extension s = s.
Proof.
  induction s as [|c s IH]; simpl; intros H.
  - reflexivity.
  - apply andb_true_iff in H. destruct H as (Hc & Hs).
    apply negb_true_iff in Hc. rewrite Hc, IH by assumption. reflexivity.
Qed.

(** ** The text of a data URL *)

Lemma lacks_app (c : N) (x y : ustring) :
  lacks c (x ++ y) = lacks c x && lacks c y.
Proof. apply forallb_app. Qed.

Lemma lacks_cons (c d : N) (x : ustring) :
  lacks c (d :: x) = negb (d =? c)%N && lacks c x.
Proof. reflexivity. Qed.

Lemma split_comma_whole (acc s : ustring) :
  lacks 44 s = true -> split_comma acc s = [acc ++ s].
Proof.
  revert acc. induction s as [|c s IH]; intros acc H.
  - simpl. rewrite app_nil_r. reflexivity.
  - rewrite lacks_cons in H. apply andb_true_iff in H. destruct H as (Hc & Hs).
    apply negb_true_iff in Hc. simpl. rewrite Hc, IH by exact Hs.
    rewrite <- app_assoc. reflexivity.
Qed.

Lemma split_comma_first (acc x y : ustring) :
  lacks 44 x = true ->
  split_comma acc (x ++ 44%N :: y) = (acc ++ x) :: split_comma [] y.
Proof.
  revert acc. induction x as [|c x IH]; intros acc H.
  - simpl. rewrite app_nil_r. reflexivity.
  - rewrite lacks_cons in H. apply andb_true_iff in H. destruct H as (Hc & Hs).
    apply negb_true_iff in Hc. simpl. rewrite Hc, IH by exact Hs.
    rewrite <- app_assoc. reflexivity.
Qed.

Lemma until_semicolon_found (mime rest : ustring) :
  lacks 59 mime = true -> one_line mime = true ->
  until_semicolon (mime ++ 59%N :: rest) = Some mime.
Proof.
  induction mime as [|c mime IH]; intros Hs Hl.
  - reflexivity.
  - rewrite lacks_cons in Hs. apply andb_true_iff in Hs. destruct Hs as (Hc & Hs).
    unfold one_line in Hl. simpl in Hl.
    apply andb_true_iff in Hl. destruct Hl as (Hn & Hl).
    apply negb_true_iff in Hc, Hn. simpl. rewrite Hc, Hn, IH by assumption.
    reflexivity.
Qed.

Lemma until_semicolon_none (s : ustring) :
  lacks 59 s = true -> until_semicolon s = None.
Proof.
  induction s as [|c s IH]; intros H.
  - reflexivity.
  - rewrite lacks_cons in H. apply andb_true_iff in H. destruct H as (Hc & Hs).
    apply negb_true_iff in Hc. simpl. rewrite Hc, IH by exact Hs.
    destruct (is_line_end c); reflexivity.
Qed.

Lemma match_mime_after_scheme (scheme rest : ustring) :
  lacks 58 scheme = true ->
  match_mime (scheme ++ 58%N :: rest)
  = match until_semicolon rest with
    | Some t => Some t
    | None => match_mime rest
    end.
Proof.
  induction scheme as [|c scheme IH]; intros H.
  - reflexivity.
  - rewrite lacks_cons in H. apply andb_true_iff in H. destruct H as (Hc & Hs).
    apply negb_true_iff in Hc. simpl. rewrite Hc. apply IH. exact Hs.
Qed.

(** Without a colon there is no match, and none without a semicolon. *)
Lemma match_mime_no_colon (s : ustring) :
  lacks 58 s = true -> match_mime s = None.
Proof.
  induction s as [|c s IH]; intros H.
  - reflexivity.
  - rewrite lacks_cons in H. apply andb_true_iff in H. destruct H as (Hc & Hs).
    apply negb_true_iff in Hc. simpl. rewrite Hc. apply IH. exact Hs.
Qed.

Lemma match_mime_no_semicolon (s : ustring) :
  lacks 59 s = true -> match_mime s = None.
Proof.
  induction s as [|c s IH]; intros H.
  - reflexivity.
  - rewrite lacks_cons in H. apply andb_true_iff in H. destruct H as (_ & Hs).
    simpl. rewrite (until_semicolon_none s Hs), IH by exact Hs.
    destruct (c =? 58)%N; reflexivity.
Qed.

(** [dataURLToBlob] on text that reads back as four parts. *)
Lemma dataURLToBlob_parts (atob : ustring -> result ustring)
    (scheme mime params payload : ustring) :
  data_url_parts scheme mime params payload = true ->
  dataURLToBlob atob (data_url_text scheme mime params payload)
  = (bstr <- atob payload ;; Ok (mkBlob (char_codes bstr) (Blob_type mime))).
Proof.
  unfold data_url_parts, data_url_text. intros H.
  repeat (apply andb_true_iff in H; destruct H as (H & ?)).
  unfold dataURLToBlob.
  assert (Hsplit :
    split_comma [] (scheme ++ 58%N :: mime ++ 59%N :: params ++ 44%N :: payload)
    = [scheme ++ 58%N :: mime ++ 59%N :: params; payload]).
  { replace (scheme ++ 58%N :: mime ++ 59%N :: params ++ 44%N :: payload)
      with ((scheme ++ 58%N :: mime ++ 59%N :: params) ++ 44%N :: payload).
    - rewrite split_comma_first.
      + rewrite split_comma_whole by assumption. reflexivity.
      + rewrite lacks_app, lacks_cons, lacks_app, lacks_cons.
        repeat (apply andb_true_iff; split); try assumption; reflexivity.
    - rewrite <- app_assoc. simpl. rewrite <- app_assoc. reflexivity. }
  rewrite Hsplit. cbn [nth].
  rewrite match_mime_after_scheme by assumption.
  rewrite until_semicolon_found by assumption.
  reflexivity.
Qed.

(** ** ImageTools *)

Section ImageFacts.

Context {Image : Type}.
Variable img_width img_height : Image -> float.
Variable decode : File -> option Image.
Variable toDataURL : Canvas Image -> string -> float -> ustring.
Variable atob : ustring -> result ustring.


End ImageFacts.

(** C7. Where [resizeImage] departs from the dimensions asked for. A
    250 x 120 source at width 250, with the aspect ratio kept, gets the
    height 250 / (250 / 120), the double just below 120, not 120 (which is
    what 250 * (120 / 250) is). A 7 x 7 source fitted into a box 29 wide gets
    the width 7 * (29 / 7), the double just above 29, and so does not fit.
    Nothing is rounded before the canvas is sized. The examples of a
    400 x 300 source at width 200 and of a 400 x 200 source in a 100 x 100
    box come out exact: 200 x 150 and 100 x 50. *)
Theorem resize_dimensions_not_rounded :
  resize_dimensions 250 120 (Some 250%float) None true
  = (Some 250%float, Some (PrimFloat.next_down 120))
  /\ (PrimFloat.next_down 120 <? 120)%float = true
  /\ (250 * (120 / 250))%float = 120%float
  /\ resize_dimensions 7 7 (Some 29%float) (Some 1000%float) true
     = (Some (PrimFloat.next_up 29), Some (PrimFloat.next_up 29))
  /\ (29 <? PrimFloat.next_up 29)%float = true
  /\ resize_dimensions 400 300 (Some 200%float) None true
     = (Some 200%float, Some 150%float)
  /\ resize_dimensions 400 200 (Some 100%float) (Some 100%float) true
     = (Some 100%float, Some 50%float).
Proof.
  split; [reflexivity|]. split; [reflexivity|]. split; [reflexivity|].
  split; [reflexivity|]. split; [reflexivity|]. split; reflexivity.
Qed.

(** * Further properties *)

(** ** The outcome monad and strings *)

Lemma mapM_first_Err {A B : Type} (f : A -> result B) (l : list A) (e0 : JsError) :
  (forall x e, f x = Err e -> e = e0) ->
  (exists x, In x l /\ f x = Err e0) ->
  mapM f l = Err e0.
Proof.
  intros Hall. induction l as [|x l IH]; intros (y & Hin & Hy).
  - contradiction.
  - simpl. destruct (f x) as [b|e] eqn:Hx; simpl.
    + destruct Hin as [->|Hin]; [congruence|].
      rewrite IH by (exists y; auto). reflexivity.
    + f_equal. eapply Hall. exact Hx.
Qed.

Lemma string_app_length (x y : string) :
  String.length (x ++ y) = (String.length x + String.length y)%nat.
Proof. induction x as [|c x IH]; simpl; [reflexivity | rewrite IH; reflexivity]. Qed.

Lemma string_app_nil_r (x : string) : (x ++ "")%string = x.
Proof. induction x as [|c x IH]; simpl; [reflexivity | rewrite IH; reflexivity]. Qed.

Lemma string_app_assoc (x y z : string) :
  ((x ++ y) ++ z)%string = (x ++ y ++ z)%string.
Proof. induction x as [|c x IH]; simpl; [reflexivity | rewrite IH; reflexivity]. Qed.

Lemma string_app_inj_l (a x y : string) :
  (a ++ x)%string = (a ++ y)%string -> x = y.
Proof.
  induction a as [|c a IH]; simpl; intros H.
  - exact H.
  - injection H as H. apply IH. exact H.
Qed.

Lemma string_app_inj_r (x y s : string) :
  (x ++ s)%string = (y ++ s)%string -> x = y.
Proof.
  revert y. induction x as [|c x IH]; intros [|d y] H; simpl in H.
  - reflexivity.
  - apply (f_equal String.length) in H. simpl in H.
    rewrite string_app_length in H. lia.
  - apply (f_equal String.length) in H. simpl in H.
    rewrite string_app_length in H. lia.
  - injection H as -> H. f_equal. apply IH. exact H.
Qed.

(** The decimal text of an integer determines it. *)
Lemma Z_to_string_inj (a b : Z) : Z_to_string a = Z_to_string b -> a = b.
Proof.
  unfold Z_to_string. intros H.
  apply DecimalZ.to_int_inj.
  assert (Hsi : forall z, NilZero.int_of_string (NilZero.string_of_int (Z.to_int z))
                          = Some (Z.to_int z)).
  { intros z. apply NilZero.isi.
    - intros Hz. pose proof (f_equal Z.of_int Hz) as Hz'.
      rewrite DecimalZ.of_to in Hz'. subst z. vm_compute in Hz. discriminate Hz.
    - intros Hz. pose proof (f_equal Z.of_int Hz) as Hz'.
      rewrite DecimalZ.of_to in Hz'. subst z. vm_compute in Hz. discriminate Hz. }
  apply (f_equal NilZero.int_of_string) in H.
  rewrite !Hsi in H. injection H as H. exact H.
Qed.

(** ** More on [mergePDFs] *)

Section PDFMore.

Context {Page : Type}.
Variable load : Bytes -> result (list Page).
Variable save : list Page -> Bytes.
Variable serialize : list Page -> Bytes.
Variable blank : Page.

(** The loop over [fs1 ++ fs2] is the loop over [fs1] followed by the loop
    over [fs2] on the state reached. *)
Lemma merge_loop_app (fs1 fs2 : list File) (acc : list Page) (total : Z) :
  merge_loop load (fs1 ++ fs2) acc total
  = (st <- merge_loop load fs1 acc total ;; merge_loop load fs2 (fst st) (snd st)).
Proof.
  revert acc total. induction fs1 as [|f fs1 IH]; intros acc total; simpl.
  - reflexivity.
  - destruct (load (arrayBuffer f)) as [pdf|e]; simpl; [|reflexivity].
    destruct (copyPages pdf (getPageIndices pdf)) as [c|e]; simpl; [|reflexivity].
    apply IH.
Qed.

Lemma merge_loop_Ok_inv (fs : list File) (acc d : list Page) (total n : Z) :
  merge_loop load fs acc total = Ok (d, n) ->
  exists docs,
    Forall2 (fun f doc => load (arrayBuffer f) = Ok doc) fs docs
    /\ d = acc ++ List.concat docs
    /\ n = total + Zsum (map getPageCount docs).
Proof.
  revert acc total. induction fs as [|f fs IH]; intros acc total; simpl.
  - intros [= <- <-]. exists []. simpl.
    rewrite app_nil_r, Z.add_0_r. repeat split. constructor.
  - destruct (load (arrayBuffer f)) as [pdf|e] eqn:Hf; simpl; [|discriminate].
    rewrite copyPages_all. simpl. intros H.
    destruct (IH _ _ H) as (docs & Hd & -> & ->).
    exists (pdf :: docs). split; [constructor; assumption|].
    simpl. rewrite addPages_app, <- app_assoc. split; [reflexivity | lia].
Qed.

Lemma mergePDFs_Ok_inv (fs : list File) (r : MergeResult) :
  mergePDFs load save fs = Ok r ->
  exists docs,
    Forall2 (fun f doc => load (arrayBuffer f) = Ok doc) fs docs
    /\ r = mkMergeResult (mkBlob (save (List.concat docs)) "application/pdf")
             (Z.of_nat (List.length (save (List.concat docs))))
             (Zsum (map getPageCount docs)).
Proof.
  unfold mergePDFs. rewrite try_catch_rethrow.
  destruct (merge_loop load fs create 0) as [[d n]|e] eqn:Hl; simpl; [|discriminate].
  intros [= <-]. destruct (merge_loop_Ok_inv _ _ _ _ _ Hl) as (docs & Hd & -> & ->).
  exists docs. split; [exact Hd | reflexivity].
Qed.

(** X1. [mergePDFs] rejects with the error of the first source, in input
    order, that does not decode; the sources after it are not looked at. *)
Theorem mergePDFs_first_failure (pre post : list File) (f : File)
    (docs : list (list Page)) (e : JsError) :
  Forall2 (fun g d => load (arrayBuffer g) = Ok d) pre docs ->
  load (arrayBuffer f) = Err e ->
  mergePDFs load save (pre ++ f :: post) = Err e.
Proof.
  intros Hpre Hf. unfold mergePDFs. rewrite try_catch_rethrow, merge_loop_app.
  rewrite (merge_loop_decodable load pre docs Hpre). simpl.
  rewrite Hf. reflexivity.
Qed.

(** X2. When [mergePDFs] resolves, the page total it reports is the sum of
    what [getPDFPageCount] returns for each source, and the blob size it
    reports is the length of the blob. *)
Theorem mergePDFs_pages_sum_of_counts (fs : list File) (r : MergeResult) :
  mergePDFs load save fs = Ok r ->
  exists counts,
    mapM (getPDFPageCount load) fs = Ok counts
    /\ pages r = Zsum counts
    /\ size r = blob_size (blob r).
Proof.
  intros H. destruct (mergePDFs_Ok_inv fs r H) as (docs & Hd & ->).
  exists (map getPageCount docs). split; [|split; reflexivity].
  clear H. induction Hd as [|f d fs docs Hf _ IH]; simpl.
  - reflexivity.
  - unfold getPDFPageCount at 1. rewrite Hf. simpl. rewrite IH. reflexivity.
Qed.

(** X3. Merging in two steps is merging in one. Take sources [fs1] that
    decode and have at least one page between them, and a library that reads
    back the merged document it wrote for them: a file made of the blob that
    [mergePDFs] returned for [fs1], put before [fs2], merges to what
    [fs1 ++ fs2] merges to, whether that is a result or a rejection. *)
Theorem mergePDFs_incremental (fs1 fs2 : list File) (docs1 : list (list Page))
    (r1 : MergeResult) (n t : string) :
  Forall2 (fun f d => load (arrayBuffer f) = Ok d) fs1 docs1 ->
  List.concat docs1 <> [] ->
  load (serialize (List.concat docs1)) = Ok (List.concat docs1) ->
  mergePDFs load (PDFDocument_save serialize blank) fs1 = Ok r1 ->
  mergePDFs load (PDFDocument_save serialize blank) (new_File (blob r1) n t :: fs2)
  = mergePDFs load (PDFDocument_save serialize blank) (fs1 ++ fs2).
Proof.
  intros Hd Hne Hrt H1.
  rewrite (mergePDFs_decodable load _ fs1 docs1 Hd) in H1. injection H1 as <-.
  unfold mergePDFs. rewrite !try_catch_rethrow, merge_loop_app.
  rewrite (merge_loop_decodable load fs1 docs1 Hd).
  cbn [bind merge_loop fst snd]. unfold arrayBuffer, new_File.
  cbn [file_data blob_data blob].
  rewrite PDFDocument_save_written, (written_document_pages blank _ Hne), Hrt.
  cbn [bind]. rewrite copyPages_all. cbn [bind].
  rewrite addPages_app. simpl app. rewrite getPageCount_concat. reflexivity.
Qed.

End PDFMore.

(** ** More on [splitPDF] *)

Section PDFSplitMore.

Context {Page : Type}.
Variable load : Bytes -> result (list Page).
Variable save : list Page -> Bytes.

Lemma Array_get_out_of_bounds (pdf : list Page) (i : Z) :
  i < 0 \/ getPageCount pdf <= i -> Array_get pdf i = None.
Proof.
  unfold Array_get, getPageCount. intros Hi.
  destruct (i <? 0) eqn:H; [reflexivity|].
  apply Z.ltb_ge in H. apply nth_error_None. lia.
Qed.

Lemma copyPage_Err (pdf : list Page) (i : Z) (e : JsError) :
  copyPage pdf i = Err e -> e = TypeError "Cannot read properties of undefined".
Proof.
  unfold copyPage. destruct (Array_get pdf i); [discriminate|].
  intros [= <-]. reflexivity.
Qed.

Lemma split_singletons_named (file : File) (pdf : list Page)
    (PI : list (list Z)) (n a : nat) :
  (a + n = List.length pdf)%nat ->
  exists outs,
    mapM (split_one save file pdf "all" PI) (map (fun i => [Z.of_nat i]) (seq a n))
    = Ok outs
    /\ Forall2 (fun p f => file_data f = save [p]) (skipn a pdf) outs
    /\ map name outs = map (page_file_name file) (seq a n).
Proof.
  revert a. induction n as [|n IH]; intros a Ha; simpl.
  - exists []. split; [reflexivity|]. split; [|reflexivity].
    rewrite skipn_all2 by lia. constructor.
  - destruct (skipn_nth_error pdf a) as (p & Hp & Hs); [lia|].
    destruct (IH (S a)) as (outs & Ho & Hf & Hn); [lia|].
    rewrite (split_one_copied save file pdf "all" PI [Z.of_nat a] [p]).
    + simpl. rewrite Ho. simpl. eexists. split; [reflexivity|]. split.
      * rewrite Hs. constructor; [reflexivity | exact Hf].
      * simpl. rewrite Hn. f_equal.
        unfold split_name, page_file_name.
        rewrite orb_true_r. reflexivity.
    + unfold copyPages. simpl. rewrite (copyPage_of_nat _ _ _ Hp). reflexivity.
Qed.

Lemma splitPDF_all_outs (file : File) (pdf : list Page) (o : SplitOptions) :
  load (arrayBuffer file) = Ok pdf ->
  exists outs,
    splitPDF load save file "all" o = Ok (mkSplitResult outs (getPageCount pdf))
    /\ Forall2 (fun p f => file_data f = save [p]) pdf outs
    /\ map name outs = map (page_file_name file) (seq 0 (List.length pdf)).
Proof.
  intros Hload. rewrite (splitPDF_decoded load save _ _ _ _ Hload).
  change (pageIndices_of (getPageCount pdf) "all" o)
    with (Ok (A := list (list Z)) (Array_from (getPageCount pdf) (fun i => [i]))).
  cbn [bind].
  unfold Array_from at 2, getPageCount at 2. rewrite Nat2Z.id.
  destruct (split_singletons_named file pdf
              (Array_from (getPageCount pdf) (fun i => [i]))
              (List.length pdf) 0 eq_refl) as (outs & Ho & Hf & Hn).
  rewrite Ho. cbn [bind]. exists outs. simpl in Hf. auto.
Qed.

Lemma page_file_name_inj (file : File) (j k : nat) :
  page_file_name file j = page_file_name file k -> j = k.
Proof.
  unfold page_file_name. intros H.
  apply string_app_inj_r in H. apply string_app_inj_l in H.
  apply (string_app_inj_l "_pages_") in H.
  apply Z_to_string_inj in H. lia.
Qed.

(** X5. For method [all] the k-th output file is named after the source:
    its base name, then [_pages_k.pdf]; no two output files share a name. *)
Theorem splitPDF_all_names (file : File) (pdf : list Page) (o : SplitOptions) :
  load (arrayBuffer file) = Ok pdf ->
  exists outs,
    splitPDF load save file "all" o = Ok (mkSplitResult outs (getPageCount pdf))
    /\ map name outs = map (page_file_name file) (seq 0 (List.length pdf))
    /\ NoDup (map name outs).
Proof.
  intros Hload.
  destruct (splitPDF_all_outs file pdf o Hload) as (outs & Hs & _ & Hn).
  exists outs. split; [exact Hs|]. split; [exact Hn|].
  rewrite Hn. apply Finite.Injective_map_NoDup.
  - intros j k. apply page_file_name_inj.
  - apply seq_NoDup.
Qed.

Lemma copyPages_range (pdf : list Page) (cs ce : Z) :
  0 <= cs -> cs <= ce -> ce < getPageCount pdf ->
  copyPages pdf (Array_from (ce - cs + 1) (fun i => cs + i))
  = Ok (page_range pdf (cs + 1) (ce + 1)).
Proof.
  intros H0 H1 H2. unfold getPageCount in H2.
  rewrite Array_from_offset by assumption.
  rewrite copyPages_consecutive by lia.
  unfold page_range. do 2 f_equal.
  - f_equal. lia.
  - f_equal. f_equal. lia.
Qed.

Lemma page_range_whole (pdf : list Page) :
  page_range pdf 1 (getPageCount pdf) = pdf.
Proof.
  unfold page_range, getPageCount. simpl.
  replace (Z.to_nat (Z.of_nat (List.length pdf) - 1 + 1)) with (List.length pdf) by lia.
  apply firstn_all.
Qed.

Lemma splitPDF_range_ordered (file : File) (pdf : list Page) (o : SplitOptions) :
  load (arrayBuffer file) = Ok pdf ->
  range_start o <= range_end (getPageCount pdf) o ->
  splitPDF load save file "range" o
  = Ok (mkSplitResult
          [mkFile (save (page_range pdf (range_start o + 1)
                           (range_end (getPageCount pdf) o + 1)))
                  (range_file_name file (range_start o + 1)
                     (range_end (getPageCount pdf) o + 1))
                  "application/pdf"]
          (getPageCount pdf)).
Proof.
  intros Hload Hord. rewrite (splitPDF_decoded load save _ _ _ _ Hload).
  set (N := getPageCount pdf) in *.
  set (cs := range_start o) in *. set (ce := range_end N o) in *.
  assert (Hcs : 0 <= cs) by apply range_start_nonneg.
  assert (Hce : ce < N) by (unfold ce, range_end; lia).
  assert (HPI : pageIndices_of N "range" o
                = Ok [Array_from (ce - cs + 1) (fun i => cs + i)]).
  { unfold pageIndices_of. simpl. fold (range_start o). fold (range_end N o).
    fold cs ce. destruct (cs >? ce) eqn:Hgt; [|reflexivity].
    apply Z.gtb_lt in Hgt. lia. }
  rewrite HPI. cbn [bind mapM].
  set (indices := Array_from (ce - cs + 1) (fun i => cs + i)).
  rewrite (split_one_copied save _ _ _ _ _ _ (copyPages_range pdf cs ce Hcs Hord Hce)).
  cbn [bind].
  unfold split_name, range_file_name.
  change (1 <? Z.of_nat (List.length [indices])) with false.
  cbn [orb String.eqb Ascii.eqb Bool.eqb].
  assert (Hfirst : Array_get indices 0 = Some cs).
  { unfold indices. rewrite Array_get_Array_from by lia. f_equal. lia. }
  assert (Hlast : Array_get indices (Z.of_nat (List.length indices) - 1) = Some ce).
  { unfold indices. rewrite Array_from_length, Z2Nat.id by lia.
    rewrite Array_get_Array_from by lia. f_equal. lia. }
  unfold indices in Hfirst, Hlast. rewrite Hfirst, Hlast. reflexivity.
Qed.

(** X6. Method [range] for any options on a document that decodes: when
    the start index does not exceed the end index the one output holds the
    pages between them and is named after them; an empty document always
    gives "Invalid page range"; and with neither bound given (or given as 0)
    a document with pages comes back whole, as pages 1 to N. *)
Theorem splitPDF_range_any_options (file : File) (pdf : list Page) (o : SplitOptions) :
  load (arrayBuffer file) = Ok pdf ->
  (range_start o <= range_end (getPageCount pdf) o ->
     splitPDF load save file "range" o
     = Ok (mkSplitResult
             [mkFile (save (page_range pdf (range_start o + 1)
                              (range_end (getPageCount pdf) o + 1)))
                     (range_file_name file (range_start o + 1)
                        (range_end (getPageCount pdf) o + 1))
                     "application/pdf"]
             (getPageCount pdf)))
  /\ (pdf = [] ->
      splitPDF load save file "range" o = Err (Error "Invalid page range"))
  /\ (or_default (start o) 1 = 1 -> or_default (end_ o) (getPageCount pdf) = getPageCount pdf ->
      pdf <> [] ->
      splitPDF load save file "range" o
      = Ok (mkSplitResult
              [mkFile (save pdf) (range_file_name file 1 (getPageCount pdf))
                      "application/pdf"]
              (getPageCount pdf))).
Proof.
  intros Hload. split; [|split].
  - apply splitPDF_range_ordered. exact Hload.
  - intros ->. rewrite (splitPDF_decoded load save _ _ _ _ Hload).
    assert (HE : pageIndices_of (getPageCount (@nil Page)) "range" o
                 = Err (Error "Invalid page range")).
    { apply pageIndices_of_Err. left. split; [reflexivity|]. split; [|reflexivity].
      pose proof (range_start_nonneg o) as H0.
      unfold range_end, getPageCount. simpl. lia. }
    rewrite HE. reflexivity.
  - intros Hs He Hne.
    assert (HN : 1 <= getPageCount pdf).
    { unfold getPageCount. destruct pdf; [contradiction | simpl; lia]. }
    assert (Hrs : range_start o = 0) by (unfold range_start; rewrite Hs; lia).
    assert (Hre : range_end (getPageCount pdf) o = getPageCount pdf - 1)
      by (unfold range_end; rewrite He; lia).
    rewrite (splitPDF_range_ordered file pdf o Hload) by lia.
    rewrite Hrs, Hre.
    replace (getPageCount pdf - 1 + 1) with (getPageCount pdf) by lia.
    change (0 + 1) with 1. rewrite page_range_whole. reflexivity.
Qed.

Lemma custom_indices_perm (N : Z) (s e s' e' : option Z) (sel sel' : list Z) :
  Permutation sel sel' ->
  pageIndices_of N "custom" (mkSplitOptions s e (Some sel))
  = pageIndices_of N "custom" (mkSplitOptions s' e' (Some sel')).
Proof.
  intros Hp. unfold pageIndices_of. simpl.
  destruct sel as [|p sel]; destruct sel' as [|p' sel'].
  - reflexivity.
  - apply Permutation_nil in Hp. discriminate.
  - apply Permutation_sym, Permutation_nil in Hp. discriminate.
  - do 2 f_equal.
    apply (sorted_perm_unique
             (Array_sort by_difference (map (fun q => q - 1) (p :: sel)))
             (Array_sort by_difference (map (fun q => q - 1) (p' :: sel')))).
    + apply Array_sort_sorted.
    + apply Array_sort_sorted.
    + eapply perm_trans; [apply Permutation_sym, Array_sort_perm|].
      eapply perm_trans; [|apply Array_sort_perm].
      apply Permutation_map. exact Hp.
Qed.

(** X7. For method [custom] only the pages selected matter, not the order
    they are listed in, and [start] and [end] play no part: two selections
    that are rearrangements of each other give the same outcome. *)
Theorem splitPDF_custom_order_irrelevant (file : File) (s e s' e' : option Z)
    (sel sel' : list Z) :
  Permutation sel sel' ->
  splitPDF load save file "custom" (mkSplitOptions s e (Some sel))
  = splitPDF load save file "custom" (mkSplitOptions s' e' (Some sel')).
Proof.
  intros Hp. unfold splitPDF.
  destruct (load (arrayBuffer file)) as [pdf|err]; [|reflexivity].
  cbn [bind]. rewrite (custom_indices_perm _ s e s' e' sel sel' Hp). reflexivity.
Qed.

(** X8. For method [custom], a selected page number that the document does
    not have (below 1 or above the page count) makes the whole call reject,
    with the [TypeError] of the failed page copy; no file is returned for the
    pages that do exist. *)
Theorem splitPDF_custom_missing_page (file : File) (pdf : list Page)
    (s e : option Z) (sel : list Z) (p : Z) :
  load (arrayBuffer file) = Ok pdf ->
  In p sel ->
  p < 1 \/ getPageCount pdf < p ->
  splitPDF load save file "custom" (mkSplitOptions s e (Some sel))
  = Err (TypeError "Cannot read properties of undefined").
Proof.
  intros Hload Hin Hp.
  assert (Hsel : sel <> []) by (intros ->; contradiction).
  rewrite (splitPDF_decoded load save _ _ _ _ Hload).
  rewrite (pageIndices_of_custom _ _ _ _ Hsel). cbn [bind mapM].
  set (indices := Array_sort by_difference (map (fun q => q - 1) sel)).
  assert (Hc : copyPages pdf indices
               = Err (TypeError "Cannot read properties of undefined")).
  { unfold copyPages. apply mapM_first_Err.
    - intros x err. apply copyPage_Err.
    - exists (p - 1). split.
      + eapply Permutation_in; [apply Array_sort_perm|].
        apply in_map_iff. exists p. auto.
      + unfold copyPage. rewrite Array_get_out_of_bounds by lia. reflexivity. }
  unfold split_one. rewrite Hc. reflexivity.
Qed.

End PDFSplitMore.

Section PDFRoundTrip.

Context {Page : Type}.
Variable load : Bytes -> result (list Page).
Variable serialize : list Page -> Bytes.
Variable blank : Page.

(** X4. Splitting a document that has pages with method [all] and merging
    the outputs, in the order returned, gives back the source document and
    its page count, provided the library reads back the one-page documents
    it wrote. *)
Theorem split_all_then_merge (file : File) (pdf : list Page) (o : SplitOptions) :
  load (arrayBuffer file) = Ok pdf ->
  pdf <> [] ->
  (forall p, In p pdf -> load (serialize [p]) = Ok [p]) ->
  exists outs,
    splitPDF load (PDFDocument_save serialize blank) file "all" o
    = Ok (mkSplitResult outs (getPageCount pdf))
    /\ mergePDFs load (PDFDocument_save serialize blank) outs
       = Ok (mkMergeResult (mkBlob (serialize pdf) "application/pdf")
               (Z.of_nat (List.length (serialize pdf))) (getPageCount pdf)).
Proof.
  intros Hload Hne Hrt.
  destruct (splitPDF_all_outs load (PDFDocument_save serialize blank) file pdf o Hload)
    as (outs & Hs & Hf & _).
  exists outs. split; [exact Hs|].
  assert (Hd : Forall2 (fun f d => load (arrayBuffer f) = Ok d) outs
                 (map (fun p => [p]) pdf)).
  { clear Hs Hload Hne. induction Hf as [|p f pdf outs Hpf _ IH]; simpl.
    - constructor.
    - constructor.
      + unfold arrayBuffer. rewrite Hpf. apply Hrt. left. reflexivity.
      + apply IH. intros q Hq. apply Hrt. right. exact Hq. }
  rewrite (mergePDFs_decodable load _ outs _ Hd).
  assert (Hc : List.concat (map (fun p => [p]) pdf) = pdf).
  { clear. induction pdf as [|p pdf IH]; simpl; [reflexivity | rewrite IH; reflexivity]. }
  assert (Hz : Zsum (map getPageCount (map (fun p : Page => [p]) pdf)) = getPageCount pdf).
  { rewrite <- getPageCount_concat, Hc. reflexivity. }
  rewrite Hc, Hz, PDFDocument_save_written, (written_document_pages blank _ Hne).
  reflexivity.
Qed.

End PDFRoundTrip.

(** ** More on file names *)

Lemma ext_tail_no_dot (ext : string) : ext_tail ext = true -> no_dot ext = true.
Proof.
  intros H. assert (Hn : no_dot_slash ext = true) by (destruct ext; [discriminate | exact H]).
  clear H. induction ext as [|c ext IH]; simpl in *.
  - reflexivity.
  - apply andb_true_iff in Hn. destruct Hn as (Hc & Hr).
    apply andb_true_iff in Hc. destruct Hc as (Hd & _).
    rewrite Hd. simpl. apply IH. exact Hr.
Qed.

Lemma last_segment_no_dot (acc s : string) :
  no_dot s = true -> last_segment acc s = (acc ++ s)%string.
Proof.
  revert acc. induction s as [|c s IH]; intros acc H; simpl in *.
  - rewrite string_app_nil_r. reflexivity.
  - apply andb_true_iff in H. destruct H as (Hc & Hs).
    apply negb_true_iff in Hc. rewrite Hc, IH by exact Hs.
    rewrite string_app_assoc. reflexivity.
Qed.

Lemma last_segment_after_dot (acc base ext : string) :
  last_segment acc (base ++ String "." ext) = last_segment EmptyString ext.
Proof.
  revert acc. induction base as [|c base IH]; intros acc; simpl.
  - reflexivity.
  - destruct (is_dot c); apply IH.
Qed.

Lemma getFileExtension_base (toLowerCase : string -> string) (base ext : string) :
  ext_tail ext = true ->
  getFileExtension toLowerCase (base ++ String "." ext) = toLowerCase ext.
Proof.
  intros H. unfold getFileExtension.
  rewrite last_segment_after_dot, last_segment_no_dot by (apply ext_tail_no_dot; exact H).
  reflexivity.
Qed.

(** X9. What [name.replace(/\.[^/.]+$/, "")] does to any name: it cuts off
    at most one final extension (a dot followed by one or more characters
    that are neither dot nor slash) and changes nothing before it; the name
    is left whole exactly when it does not end in such an extension. *)
Theorem strip_extension_cuts_last_extension (s : string) :
  (exists t, s = (strip_extension s ++ t)%string
             /\ (t = EmptyString
                 \/ exists ext, t = String "." ext /\ ext_tail ext = true))
  /\ (strip_extension s = s <->
      forall base ext, s = (base ++ String "." ext)%string -> ext_tail ext = false).
Proof.
  assert (Hcut : exists t, s = (strip_extension s ++ t)%string
             /\ (t = EmptyString
                 \/ exists ext, t = String "." ext /\ ext_tail ext = true)).
  { induction s as [|c s IH]; simpl.
    - exists EmptyString. split; [reflexivity | left; reflexivity].
    - destruct (is_dot c && ext_tail s) eqn:Hc.
      + apply andb_true_iff in Hc. destruct Hc as (Hd & He).
        apply Ascii.eqb_eq in Hd. subst c.
        exists (String "." s). split; [reflexivity|]. right. exists s. auto.
      + destruct IH as (t & Hs & Ht). exists t. split; [|exact Ht].
        simpl. rewrite <- Hs. reflexivity. }
  split; [exact Hcut|]. split.
  - intros Hsame base ext Hs. destruct (ext_tail ext) eqn:He; [|reflexivity].
    exfalso. rewrite Hs in Hsame at 1. rewrite strip_extension_base in Hsame by exact He.
    rewrite Hs in Hsame. apply (f_equal String.length) in Hsame.
    rewrite string_app_length in Hsame. simpl in Hsame. lia.
  - intros Hnone. destruct Hcut as (t & Hs & [->|(ext & -> & He)]).
    + rewrite string_app_nil_r in Hs. symmetry. exact Hs.
    + rewrite (Hnone _ _ Hs) in He. discriminate.
Qed.

(** X11. [getFileType] answers [image/png], [image/jpeg] or the type of the
    file as it is; a type that mentions [png] is [image/png] even if it also
    mentions [jpeg]; and classifying again, with the answer as the type,
    gives the same answer. *)
Theorem getFileType_normalizes (file : File) :
  (getFileType file = "image/png" \/ getFileType file = "image/jpeg"
   \/ getFileType file = type file)
  /\ (String_includes (type file) "png" = true -> getFileType file = "image/png")
  /\ getFileType (mkFile (file_data file) (name file) (getFileType file))
     = getFileType file.
Proof.
  unfold getFileType. simpl.
  destruct (String_includes (type file) "png") eqn:Hpng.
  - split; [left; reflexivity|]. split; reflexivity.
  - destruct (String_includes (type file) "jpeg" || String_includes (type file) "jpg")
      eqn:Hj.
    + split; [right; left; reflexivity|]. split; [discriminate | reflexivity].
    + split; [right; right; reflexivity|]. split; [discriminate|].
      rewrite Hpng, Hj. reflexivity.
Qed.

(** ** Reading a data URL *)

(** X12. [dataURLToBlob] on the text of a data URL. When the text reads as
    [scheme:mime;params,payload] it gives the blob of the bytes that [atob]
    decodes the payload to, typed with the media type as the [Blob]
    constructor keeps it (in ASCII lower case, or empty when it holds a
    character outside U+0020 to U+007E), and it throws what [atob] throws.
    When the text before the first comma, or the whole text if it has no
    comma, holds no semicolon, as in [data:,], it throws a [TypeError]
    before [atob] is called. *)
Theorem dataURLToBlob_reads_data_url (atob : ustring -> result ustring) :
  (forall scheme mime params payload,
      data_url_parts scheme mime params payload = true ->
      dataURLToBlob atob (data_url_text scheme mime params payload)
      = (bstr <- atob payload ;; Ok (mkBlob (char_codes bstr) (Blob_type mime))))
  /\ (forall head rest,
        lacks 44 head = true -> lacks 59 head = true ->
        dataURLToBlob atob (head ++ 44%N :: rest)
        = Err (TypeError "Cannot read properties of null"))
  /\ (forall text,
        lacks 44 text = true -> lacks 59 text = true ->
        dataURLToBlob atob text = Err (TypeError "Cannot read properties of null")).
Proof.
  split; [|split].
  - intros scheme mime params payload H. apply dataURLToBlob_parts. exact H.
  - intros head rest Hk Hs. unfold dataURLToBlob.
    rewrite (split_comma_first [] head rest Hk). cbn [nth app].
    rewrite (match_mime_no_semicolon head Hs). reflexivity.
  - intros text Hk Hs. unfold dataURLToBlob.
    rewrite (split_comma_whole [] text Hk). cbn [nth app].
    rewrite (match_mime_no_semicolon text Hs). reflexivity.
Qed.

(** ** Thumbnails *)

Lemma thumbnails_shown (n a : nat) :
  shown_pages (map (fun i => page_thumbnail (Z.of_nat i + 1)) (seq a n))
  = map (fun i => Z.of_nat i + 1) (seq a n).
Proof.
  revert a. induction n as [|n IH]; intros a; simpl; [reflexivity|].
  rewrite IH. reflexivity.
Qed.

Lemma thumbnails_hidden (n a : nat) :
  hidden_pages (map (fun i => page_thumbnail (Z.of_nat i + 1)) (seq a n)) = 0.
Proof.
  revert a. induction n as [|n IH]; intros a; simpl; [reflexivity | apply IH].
Qed.

Lemma shown_pages_app (l1 l2 : list ThumbNode) :
  shown_pages (l1 ++ l2) = shown_pages l1 ++ shown_pages l2.
Proof.
  induction l1 as [|[k|h|] l1 IH]; simpl; rewrite ?IH; reflexivity.
Qed.

Lemma hidden_pages_app (l1 l2 : list ThumbNode) :
  hidden_pages (l1 ++ l2) = hidden_pages l1 + hidden_pages l2.
Proof.
  induction l1 as [|[k|h|] l1 IH]; simpl; rewrite ?IH; lia.
Qed.

(** X13. [generatePageThumbnails] replaces what the container held. For a
    file that decodes and a limit that is not negative it shows the pages 1,
    2, ... up to the limit, in order, and every page is accounted for: the
    thumbnails shown plus the pages the "more" note stands for are the page
    count. For a file that does not decode the container holds the error
    box alone. *)
Theorem generatePageThumbnails_accounts_for_pages {Page : Type}
    (load : Bytes -> result (list Page)) (file : File)
    (container : list ThumbNode) (maxThumbnails : Z) :
  (forall pdf, load (arrayBuffer file) = Ok pdf -> 0 <= maxThumbnails ->
     let nodes := generatePageThumbnails load file container maxThumbnails in
     shown_pages nodes
     = map (fun i => Z.of_nat i + 1)
           (seq 0 (Z.to_nat (Z.min (getPageCount pdf) maxThumbnails)))
     /\ Z.of_nat (List.length (shown_pages nodes)) + hidden_pages nodes
        = getPageCount pdf)
  /\ (forall e, load (arrayBuffer file) = Err e ->
        generatePageThumbnails load file container maxThumbnails = [error_box]).
Proof.
  split.
  - intros pdf Hload Hmax nodes. subst nodes.
    unfold generatePageThumbnails. rewrite Hload. simpl app.
    unfold Array_from.
    set (n := Z.to_nat (Z.min (getPageCount pdf) maxThumbnails)).
    assert (HN : 0 <= getPageCount pdf) by (unfold getPageCount; lia).
    destruct (getPageCount pdf >? maxThumbnails) eqn:Hgt.
    + apply Z.gtb_lt in Hgt.
      rewrite shown_pages_app, hidden_pages_app, thumbnails_shown, thumbnails_hidden.
      simpl. rewrite app_nil_r, length_map, length_seq. split; [reflexivity|].
      unfold n. lia.
    + assert (Hle : getPageCount pdf <= maxThumbnails).
      { destruct (Z.gtb_spec (getPageCount pdf) maxThumbnails); [discriminate | lia]. }
      rewrite thumbnails_shown, thumbnails_hidden, length_map, length_seq.
      split; [reflexivity|]. unfold n. lia.
  - intros e Hload. unfold generatePageThumbnails. rewrite Hload. reflexivity.
Qed.

(** ** More on [resizeImage] *)

Section ImageMore.

Context {Image : Type}.
Variable img_width img_height : Image -> float.
Variable decode : File -> option Image.
Variable toDataURL : Canvas Image -> string -> float -> ustring.
Variable atob : ustring -> result ustring.
Variable Number_toString : jsnum -> string.
Variable toLowerCase : string -> string.

(** X10. What [resizeImage] makes of a file that decodes. It asks the
    canvas, sized with the computed dimensions, for text in the type of the
    source (format [original]) or in [image/] followed by the format. When
    reading that text throws, the promise does not settle. Otherwise it
    resolves with a file of that type, as the [File] constructor keeps it,
    named, for a source [base.ext], [base_WxH.] followed by the format, or,
    for format [original], by what [toLowerCase] makes of [ext]; W and H are
    the computed dimensions as the engine prints them. A source without any
    dot in its name, with format [original], gets what [toLowerCase] makes
    of its whole name as extension. *)
Theorem resizeImage_output_name (file : File) (img : Image) (width height : jsnum)
    (maintain : bool) (fmt : string) :
  decode file = Some img ->
  let dims := resize_dimensions (img_width img) (img_height img) width height maintain in
  let W := Number_toString (fst dims) in
  let H := Number_toString (snd dims) in
  let mime := if (fmt =? "original")%string then type file
              else ("image/" ++ fmt)%string in
  let text := toDataURL (mkCanvas (fst dims) (snd dims) img (Some (fst dims, snd dims)))
                mime 0x1.ccccccccccccdp-1%float in
  (forall e, dataURLToBlob atob text = Err e ->
     resizeImage img_width img_height decode toDataURL atob Number_toString toLowerCase
       file width height maintain fmt = Pending e)
  /\ (forall blob, dataURLToBlob atob text = Ok blob ->
      exists nm,
        resizeImage img_width img_height decode toDataURL atob Number_toString toLowerCase
          file width height maintain fmt
        = Resolved (mkFile (blob_data blob) nm (File_type mime))
        /\ (fmt <> "original" ->
            forall base ext, name file = (base ++ String "." ext)%string ->
              ext_tail ext = true ->
              nm = (base ++ "_" ++ W ++ "x" ++ H ++ "." ++ fmt)%string)
        /\ (fmt = "original" ->
            (forall base ext, name file = (base ++ String "." ext)%string ->
               ext_tail ext = true ->
               nm = (base ++ "_" ++ W ++ "x" ++ H ++ "." ++ toLowerCase ext)%string)
            /\ (no_dot (name file) = true ->
                nm = (name file ++ "_" ++ W ++ "x" ++ H ++ "."
                        ++ toLowerCase (name file))%string))).
Proof.
  intros Himg dims W H mime text. split.
  - intros e He. unfold resizeImage. rewrite Himg.
    fold dims. fold mime. cbn [fst snd]. fold text. rewrite He. reflexivity.
  - intros blob Hb. eexists. split.
    + unfold resizeImage. rewrite Himg.
      fold dims. fold mime. cbn [fst snd]. fold text. rewrite Hb. reflexivity.
    + split.
      * intros Hfmt base ext Hname Hext.
        apply String.eqb_neq in Hfmt. rewrite Hfmt.
        rewrite Hname, strip_extension_base by exact Hext. reflexivity.
      * intros ->. cbn [String.eqb Ascii.eqb Bool.eqb]. split.
        -- intros base ext Hname Hext.
           rewrite Hname, strip_extension_base, getFileExtension_base by exact Hext.
           reflexivity.
        -- intros Hdot. rewrite strip_extension_no_dot by exact Hdot.
           unfold getFileExtension. rewrite last_segment_no_dot by exact Hdot.
           reflexivity.
Qed.

End ImageMore.

(** ** The number fields *)

Lemma SFcompare_antisym (a b : spec_float) :
  SFcompare b a = option_map CompOpp (SFcompare a b).
Proof.
  destruct a as [sa|sa| |sa ma ea]; destruct b as [sb|sb| |sb mb eb]; simpl;
    try reflexivity;
    try (destruct sa; reflexivity);
    try (destruct sb; reflexivity);
    try (destruct sa; destruct sb; reflexivity).
  destruct sa; destruct sb; simpl; try reflexivity.
  - rewrite (Z.compare_antisym ea eb).
    destruct (ea ?= eb); simpl; try reflexivity.
    pose proof (Pos.compare_cont_antisym ma mb Eq) as Hm. simpl in Hm.
    rewrite <- Hm. destruct (Pos.compare_cont Eq ma mb); reflexivity.
  - rewrite (Z.compare_antisym ea eb).
    destruct (ea ?= eb); simpl; try reflexivity.
    pose proof (Pos.compare_cont_antisym ma mb Eq) as Hm. simpl in Hm.
    rewrite <- Hm. destruct (Pos.compare_cont Eq ma mb); reflexivity.
Qed.

(** A number is below or equal to itself unless it is [NaN]. *)
Lemma float_leb_refl (x : float) :
  PrimFloat.is_nan x = false -> (x <=? x)%float = true.
Proof.
  unfold PrimFloat.is_nan. intros H. apply negb_false_iff in H.
  rewrite FloatAxioms.eqb_spec in H. rewrite FloatAxioms.leb_spec.
  unfold SFeqb in H. unfold SFleb.
  destruct (SFcompare (Prim2SF x) (Prim2SF x)) as [[| |]|]; try discriminate.
  reflexivity.
Qed.

(** Of two numbers that are not [NaN], one that is not below the other is
    above it or equal to it. *)
Lemma float_not_ltb_leb (x y : float) :
  PrimFloat.is_nan x = false -> PrimFloat.is_nan y = false ->
  (x <? y)%float = false -> (y <=? x)%float = true.
Proof.
  unfold PrimFloat.is_nan. intros Hx Hy Hlt.
  apply negb_false_iff in Hx, Hy.
  rewrite FloatAxioms.eqb_spec in Hx, Hy. rewrite FloatAxioms.ltb_spec in Hlt.
  rewrite FloatAxioms.leb_spec.
  unfold SFeqb in Hx, Hy. unfold SFltb in Hlt. unfold SFleb.
  rewrite (SFcompare_antisym (Prim2SF x) (Prim2SF y)).
  destruct (Prim2SF x) as [sx|sx| |sx mx ex]; destruct (Prim2SF y) as [sy|sy| |sy my ey];
    simpl in *; try discriminate; try reflexivity;
    repeat match goal with
           | s : bool |- _ => destruct s
           end; simpl in *; try discriminate; try reflexivity.
  - destruct (ex ?= ey); simpl in *; try discriminate; try reflexivity;
      destruct (Pos.compare_cont Eq mx my); simpl in *; try discriminate; reflexivity.
  - destruct (ex ?= ey); simpl in *; try discriminate; try reflexivity;
      destruct (Pos.compare_cont Eq mx my); simpl in *; try discriminate; reflexivity.
Qed.

Lemma num_or_not_nan (a b : float) :
  PrimFloat.is_nan b = false -> PrimFloat.is_nan (num_or a b) = false.
Proof.
  intros Hb. unfold num_or, truthy.
  destruct (PrimFloat.is_zero a || PrimFloat.is_nan a) eqn:H; simpl.
  - exact Hb.
  - apply orb_false_iff in H. apply H.
Qed.

(** X15. Whatever the [min], [max] and [value] of a number field parse to,
    the value the handler writes back is a number (not [NaN]) that is at
    most the upper bound in force, and at least the lower bound in force
    when the bounds are in order. The lower bound in force is [min], or 0
    when [min] is missing or 0; the upper is [max], or infinity when [max]
    is missing or 0. *)
Theorem validate_number_input_in_bounds (parsed_min parsed_max parsed_value : float) :
  let min := num_or parsed_min 0%float in
  let max := num_or parsed_max PrimFloat.infinity in
  let value := validate_number_input parsed_min parsed_max parsed_value in
  PrimFloat.is_nan value = false
  /\ (value <=? max)%float = true
  /\ ((min <=? max)%float = true -> (min <=? value)%float = true).
Proof.
  intros min max value. subst value. unfold validate_number_input. fold min max.
  assert (Hmin : PrimFloat.is_nan min = false) by (apply num_or_not_nan; reflexivity).
  assert (Hmax : PrimFloat.is_nan max = false) by (apply num_or_not_nan; reflexivity).
  assert (Hv : PrimFloat.is_nan (num_or parsed_value min) = false)
    by (apply num_or_not_nan; exact Hmin).
  set (v0 := num_or parsed_value min) in *.
  set (v1 := if (v0 <? min)%float then min else v0).
  assert (Hv1 : PrimFloat.is_nan v1 = false)
    by (unfold v1; destruct (v0 <? min)%float; assumption).
  assert (Hlow : (min <=? v1)%float = true).
  { unfold v1. destruct (v0 <? min)%float eqn:Hlt.
    - apply float_leb_refl. exact Hmin.
    - apply float_not_ltb_leb; assumption. }
  destruct (max <? v1)%float eqn:Hgt.
  - split; [exact Hmax|]. split; [apply float_leb_refl; exact Hmax|].
    intros Hord. exact Hord.
  - split; [exact Hv1|]. split; [apply float_not_ltb_leb; assumption|].
    intros _. exact Hlow.
Qed.

(** ** Shapes and round trips of [splitPDF] *)

Lemma mapM_Ok_Forall2 {A B : Type} (f : A -> result B) (l : list A) (ys : list B) :
  mapM f l = Ok ys -> Forall2 (fun x y => f x = Ok y) l ys.
Proof.
  revert ys. induction l as [|x l IH]; simpl; intros ys H.
  - injection H as <-. constructor.
  - destruct (f x) as [y|e] eqn:Hx; simpl in H; [|discriminate].
    destruct (mapM f l) as [zs|e] eqn:Hl; simpl in H; [|discriminate].
    injection H as <-. constructor; auto.
Qed.

Lemma pageIndices_of_length (N : Z) (m : string) (o : SplitOptions)
    (PI : list (list Z)) :
  0 <= N ->
  pageIndices_of N m o = Ok PI ->
  (m = "all" -> Z.of_nat (List.length PI) = N)
  /\ (m <> "all" -> List.length PI = 1%nat).
Proof.
  intros HN. unfold pageIndices_of.
  destruct (String.eqb_spec m "all") as [->|Hall].
  { intros [= <-]. split; [|intros H; contradiction].
    intros _. rewrite Array_from_length. lia. }
  destruct (m =? "range")%string.
  { destruct (_ >? _); [discriminate|]. intros [= <-].
    split; [intros H; contradiction | reflexivity]. }
  destruct (m =? "custom")%string; [|discriminate].
  destruct (selectedPages o) as [[|p sel]|]; try discriminate.
  intros [= <-]. split; [intros H; contradiction | reflexivity].
Qed.

Section PDFShapes.

Context {Page : Type}.
Variable load : Bytes -> result (list Page).
Variable save : list Page -> Bytes.

Lemma split_one_Ok_shape (file : File) (pdf : list Page) (m : string)
    (PI : list (list Z)) (indices : list Z) (f : File) :
  split_one save file pdf m PI indices = Ok f ->
  type f = "application/pdf"
  /\ (exists stem, name f = (stem ++ ".pdf")%string)
  /\ (exists copied, file_data f = save copied
                     /\ List.length copied = List.length indices).
Proof.
  unfold split_one. destruct (copyPages pdf indices) as [copied|e] eqn:Hc; simpl;
    [|discriminate].
  intros [= <-]. simpl. split; [reflexivity|]. split.
  - unfold split_name. eexists. reflexivity.
  - exists copied. rewrite addPages_app. split; [reflexivity|].
    apply mapM_Ok_Forall2 in Hc. symmetry. eapply Forall2_length. exact Hc.
Qed.

(** X16. Whenever [splitPDF] resolves, for any method and options: the
    total it reports is what [getPDFPageCount] returns for the file; every
    output is an [application/pdf] file whose name ends in [.pdf]; and there
    are as many outputs as pages for method [all], one output otherwise. *)
Theorem splitPDF_result_shape (file : File) (m : string) (o : SplitOptions)
    (r : SplitResult) :
  splitPDF load save file m o = Ok r ->
  getPDFPageCount load file = Ok (totalPages r)
  /\ Forall (fun f => type f = "application/pdf"
                      /\ exists stem, name f = (stem ++ ".pdf")%string) (files r)
  /\ (m = "all" -> Z.of_nat (List.length (files r)) = totalPages r)
  /\ (m <> "all" -> List.length (files r) = 1%nat).
Proof.
  unfold splitPDF, getPDFPageCount. rewrite try_catch_rethrow.
  destruct (load (arrayBuffer file)) as [pdf|e] eqn:Hload; simpl; [|discriminate].
  destruct (pageIndices_of (getPageCount pdf) m o) as [PI|e] eqn:HPI; simpl;
    [|discriminate].
  destruct (mapM (split_one save file pdf m PI) PI) as [outs|e] eqn:Hm; simpl;
    [|discriminate].
  intros [= <-]. simpl.
  apply mapM_Ok_Forall2 in Hm.
  assert (HN : 0 <= getPageCount pdf) by (unfold getPageCount; lia).
  destruct (pageIndices_of_length _ _ _ _ HN HPI) as (Hall & Hone).
  pose proof (Forall2_length Hm) as Hlen.
  split; [reflexivity|]. split; [|split].
  - clear Hlen Hall Hone. induction Hm as [|ix f l outs Hf _ IH]; constructor.
    + apply split_one_Ok_shape in Hf. destruct Hf as (Ht & Hn & _). auto.
    + exact IH.
  - intros Hm'. rewrite <- Hlen. apply Hall. exact Hm'.
  - intros Hm'. rewrite <- Hlen. apply Hone. exact Hm'.
Qed.

(** X17. For method [custom] on a selection of pages the document has, the
    output document has as many pages as the selection lists, a page listed
    twice counting twice. *)
Theorem splitPDF_custom_page_count (file : File) (pdf : list Page)
    (s e : option Z) (sel : list Z) :
  load (arrayBuffer file) = Ok pdf ->
  sel <> [] ->
  Forall (fun p => 1 <= p <= getPageCount pdf) sel ->
  exists f copied,
    splitPDF load save file "custom" (mkSplitOptions s e (Some sel))
    = Ok (mkSplitResult [f] (getPageCount pdf))
    /\ file_data f = save copied
    /\ List.length copied = List.length sel.
Proof.
  intros Hload Hsel Hin.
  set (indices := Array_sort by_difference (map (fun p => p - 1) sel)).
  assert (Hperm : Permutation (map (fun p => p - 1) sel) indices)
    by apply Array_sort_perm.
  assert (Hb : Forall (fun i => 0 <= i < getPageCount pdf) indices).
  { eapply Permutation_Forall; [exact Hperm|].
    apply Forall_map. eapply Forall_impl; [|exact Hin].
    simpl. intros p Hp. lia. }
  destruct (copyPages_in_bounds pdf indices Hb) as (copied & Hc & Hf).
  eexists. exists copied. split; [|split].
  - rewrite (splitPDF_decoded load save _ _ _ _ Hload).
    rewrite (pageIndices_of_custom _ _ _ _ Hsel). fold indices.
    cbn [bind mapM].
    rewrite (split_one_copied save _ _ _ _ _ _ Hc). reflexivity.
  - reflexivity.
  - rewrite <- (Forall2_length Hf), <- (Permutation_length Hperm), length_map.
    reflexivity.
Qed.

Lemma page_range_prefix (da db : list Page) :
  page_range (da ++ db) 1 (getPageCount da) = da.
Proof.
  unfold page_range, getPageCount. simpl.
  replace (Z.to_nat (Z.of_nat (List.length da) - 1 + 1)) with (List.length da + 0)%nat by lia.
  rewrite firstn_app_2. simpl. apply app_nil_r.
Qed.

Lemma page_range_suffix (da db : list Page) :
  page_range (da ++ db) (getPageCount da + 1) (getPageCount da + getPageCount db) = db.
Proof.
  unfold page_range, getPageCount.
  replace (Z.to_nat (Z.of_nat (List.length da) + 1 - 1)) with (List.length da) by lia.
  replace (Z.to_nat (Z.of_nat (List.length da) + Z.of_nat (List.length db)
                     - (Z.of_nat (List.length da) + 1) + 1))
    with (List.length db) by lia.
  rewrite skipn_app, skipn_all, Nat.sub_diag. simpl. apply firstn_all.
Qed.

(** X18. Merging two documents and then splitting the result by range gives
    the two documents back: pages 1 to |a| are the pages of the first source
    and pages |a|+1 to |a|+|b| are the pages of the second, provided neither
    is empty and the library reads back the merged document it wrote. *)
Theorem merge_then_range_recovers_sources (fa fb : File) (da db : list Page)
    (r : MergeResult) (n t : string) :
  load (arrayBuffer fa) = Ok da ->
  load (arrayBuffer fb) = Ok db ->
  da <> [] -> db <> [] ->
  load (save (da ++ db)) = Ok (da ++ db) ->
  mergePDFs load save [fa; fb] = Ok r ->
  (exists f1,
      splitPDF load save (new_File (blob r) n t) "range"
        (mkSplitOptions (Some 1) (Some (getPageCount da)) None)
      = Ok (mkSplitResult [f1] (pages r))
      /\ file_data f1 = save da)
  /\ (exists f2,
        splitPDF load save (new_File (blob r) n t) "range"
          (mkSplitOptions (Some (getPageCount da + 1))
             (Some (getPageCount da + getPageCount db)) None)
        = Ok (mkSplitResult [f2] (pages r))
        /\ file_data f2 = save db).
Proof.
  intros Ha Hb Hna Hnb Hrt Hm.
  assert (Hr : r = mkMergeResult (mkBlob (save (da ++ db)) "application/pdf")
                     (Z.of_nat (List.length (save (da ++ db))))
                     (getPageCount (da ++ db))).
  { unfold mergePDFs in Hm. rewrite try_catch_rethrow in Hm. simpl in Hm.
    rewrite Ha in Hm. simpl in Hm. rewrite copyPages_all in Hm. simpl in Hm.
    rewrite Hb in Hm. simpl in Hm. rewrite copyPages_all in Hm. simpl in Hm.
    injection Hm as <-. rewrite !addPages_app. simpl.
    unfold getPageCount. rewrite length_app. do 2 f_equal. lia. }
  subst r. simpl.
  assert (Hload : load (arrayBuffer (new_File (mkBlob (save (da ++ db)) "application/pdf") n t))
                  = Ok (da ++ db)) by exact Hrt.
  assert (Hla : 1 <= getPageCount da).
  { unfold getPageCount. destruct da; [contradiction | simpl; lia]. }
  assert (Hlb : 1 <= getPageCount db).
  { unfold getPageCount. destruct db; [contradiction | simpl; lia]. }
  assert (HN : getPageCount (da ++ db) = getPageCount da + getPageCount db).
  { unfold getPageCount. rewrite length_app. lia. }
  split.
  - eexists. split.
    + apply (splitPDF_range_ordered load save _ _ _ Hload).
      unfold range_start, range_end, or_default. simpl.
      destruct (getPageCount da =? 0) eqn:E; [apply Z.eqb_eq in E; lia|]. lia.
    + simpl. f_equal.
      replace (range_start (mkSplitOptions (Some 1) (Some (getPageCount da)) None) + 1)
        with 1 by (unfold range_start; simpl; lia).
      replace (range_end (getPageCount (da ++ db))
                 (mkSplitOptions (Some 1) (Some (getPageCount da)) None) + 1)
        with (getPageCount da).
      * apply page_range_prefix.
      * unfold range_end, or_default. simpl.
        destruct (getPageCount da =? 0) eqn:E; [apply Z.eqb_eq in E; lia|]. lia.
  - eexists. split.
    + apply (splitPDF_range_ordered load save _ _ _ Hload).
      unfold range_start, range_end, or_default. simpl.
      destruct (getPageCount da + 1 =? 0) eqn:E1; [apply Z.eqb_eq in E1; lia|].
      destruct (getPageCount da + getPageCount db =? 0) eqn:E2;
        [apply Z.eqb_eq in E2; lia|]. lia.
    + simpl. f_equal.
      replace (range_start (mkSplitOptions (Some (getPageCount da + 1))
                 (Some (getPageCount da + getPageCount db)) None) + 1)
        with (getPageCount da + 1).
      * replace (range_end (getPageCount (da ++ db))
                   (mkSplitOptions (Some (getPageCount da + 1))
                      (Some (getPageCount da + getPageCount db)) None) + 1)
          with (getPageCount da + getPageCount db).
        -- apply page_range_suffix.
        -- unfold range_end, or_default. simpl.
           destruct (getPageCount da + getPageCount db =? 0) eqn:E2;
             [apply Z.eqb_eq in E2; lia|]. lia.
      * unfold range_start, or_default. simpl.
        destruct (getPageCount da + 1 =? 0) eqn:E1; [apply Z.eqb_eq in E1; lia|]. lia.
Qed.

End PDFShapes.

(** * Examples on the small instance *)

(** [merge([a (2 pages), b (3 pages)])]: the document returned has the five
    pages, [a]'s first, and five is the total reported; a broken file among
    the sources makes the call reject. *)
Lemma mergePDFs_a_then_b :
  (exists r,
      mergePDFs Demo.load (PDFDocument_save Demo.serialize Demo.blank) [Demo.a; Demo.b]
      = Ok r
      /\ pages r = 5
      /\ Demo.load (arrayBuffer (new_File (blob r) "merged.pdf" "application/pdf"))
         = Ok [x61; x62; x63; x64; x65]
      /\ getPDFPageCount Demo.load (new_File (blob r) "merged.pdf" "application/pdf")
         = Ok 5)
  /\ exists e,
       mergePDFs Demo.load (PDFDocument_save Demo.serialize Demo.blank)
         [Demo.a; Demo.broken; Demo.b] = Err e.
Proof.
  split.
  - assert (Hd : Forall2 (fun f d => Demo.load (arrayBuffer f) = Ok d)
                   [Demo.a; Demo.b] [[x61; x62]; [x63; x64; x65]])
      by (repeat constructor).
    destruct (proj1 (mergePDFs_returned_document Demo.load Demo.serialize Demo.blank
                       [Demo.a; Demo.b])
                [[x61; x62]; [x63; x64; x65]] "merged.pdf" "application/pdf"
                Hd eq_refl) as (r & Hm & Hp & _ & Hsome & _).
    assert (Hne : List.concat [[x61; x62]; [x63; x64; x65]] <> []) by discriminate.
    destruct (Hsome Hne) as (Hl & Hc).
    exists r. split; [exact Hm|]. split; [exact Hp|]. split; [exact Hl|].
    rewrite Hp in Hc. exact Hc.
  - refine (proj2 (mergePDFs_returned_document Demo.load Demo.serialize Demo.blank
                     [Demo.a; Demo.broken; Demo.b])
              Demo.broken (LibraryError "Failed to parse PDF document") _ _).
    + simpl. auto.
    + reflexivity.
Defined.

(** C1, as stated, fails: on no sources, and on a source that decodes to a
    document without pages, the sum of the page counts is 0 and the
    document returned has one page. *)
Lemma mergePDFs_nothing_to_merge :
  mergePDFs Demo.load (PDFDocument_save Demo.serialize Demo.blank) []
  = Ok (mkMergeResult (mkBlob [x20] "application/pdf") 1 0)
  /\ Demo.load (arrayBuffer (Demo.pdf_file "empty.pdf" [])) = Ok []
  /\ mergePDFs Demo.load (PDFDocument_save Demo.serialize Demo.blank)
       [Demo.pdf_file "empty.pdf" []]
     = Ok (mkMergeResult (mkBlob [x20] "application/pdf") 1 0)
  /\ getPDFPageCount Demo.load
       (new_File (mkBlob [x20] "application/pdf") "merged.pdf" "application/pdf")
     = Ok 1
  /\ 1 <> Zsum (map (@getPageCount Demo.Page) [[]]).
Proof.
  split; [reflexivity|]. split; [reflexivity|]. split; [reflexivity|].
  split; [reflexivity|]. discriminate.
Qed.

(** C10, as stated, fails: the document returned for no files holds a
    page. *)
Lemma mergePDFs_empty_not_page_less :
  mergePDFs Demo.load (PDFDocument_save Demo.serialize Demo.blank) []
  = Ok (mkMergeResult (mkBlob [x20] "application/pdf") 1 0)
  /\ Demo.load [x20] = Ok [Demo.blank]
  /\ getPageCount [Demo.blank] <> 0.
Proof.
  split; [reflexivity|]. split; [reflexivity|]. discriminate.
Qed.

Lemma mergePDFs_empty_demo :
  exists r,
    mergePDFs Demo.load (PDFDocument_save Demo.serialize Demo.blank) [] = Ok r
    /\ pages r = 0
    /\ blob r = mkBlob [x20] "application/pdf"
    /\ size r = 1
    /\ Demo.load (arrayBuffer (new_File (blob r) "merged.pdf" "application/pdf"))
       = Ok [x20]
    /\ getPDFPageCount Demo.load (new_File (blob r) "merged.pdf" "application/pdf")
       = Ok 1.
Proof.
  exact (mergePDFs_empty_has_blank_page Demo.load Demo.serialize Demo.blank
           "merged.pdf" "application/pdf" eq_refl).
Defined.

(** Pages 2 to 9 of the three-page document are its pages 2 and 3. *)
Lemma splitPDF_range_clamped :
  Z.max 1 2 <= Z.min 3 9
  /\ splitPDF Demo.load Demo.save Demo.b "range" (mkSplitOptions (Some 2) (Some 9) None)
     = Ok (mkSplitResult [mkFile [x64; x65] "b_pages_2-3.pdf" "application/pdf"] 3).
Proof.
  assert (H : Z.max 1 2 <= Z.min 3 9) by (vm_compute; discriminate).
  split; [exact H|].
  exact (proj1 (splitPDF_range_pages Demo.load Demo.save Demo.b [x63; x64; x65]
                  2 9 None eq_refl H)).
Defined.

Lemma splitPDF_all_three :
  exists outs,
    splitPDF Demo.load Demo.save Demo.b "all" (mkSplitOptions None None None)
    = Ok (mkSplitResult outs 3)
    /\ List.length outs = 3%nat
    /\ Forall2 (fun p f => file_data f = Demo.save [p]) [x63; x64; x65] outs.
Proof.
  exact (splitPDF_all_singletons Demo.load Demo.save Demo.b [x63; x64; x65]
           (mkSplitOptions None None None) eq_refl).
Defined.

Example splitPDF_all_three_files :
  splitPDF Demo.load Demo.save Demo.b "all" (mkSplitOptions None None None)
  = Ok (mkSplitResult
          [mkFile [x63] "b_pages_1.pdf" "application/pdf";
           mkFile [x64] "b_pages_2.pdf" "application/pdf";
           mkFile [x65] "b_pages_3.pdf" "application/pdf"] 3).
Proof. reflexivity. Qed.

(** A range from 3 to 1 is rejected. *)
Lemma splitPDF_inverted_range :
  splitPDF Demo.load Demo.save Demo.b "range" (mkSplitOptions (Some 3) (Some 1) None)
  = Err (Error "Invalid page range").
Proof.
  apply (splitPDF_invalid_parameter Demo.load Demo.save Demo.b [x63; x64; x65]
           "range" (mkSplitOptions (Some 3) (Some 1) None) eq_refl
           "Invalid page range").
  left. split; [reflexivity|]. split; [vm_compute; reflexivity | reflexivity].
Defined.

(** C4, as stated, fails: with start 1 and end 0 the clamped start, 1,
    exceeds the clamped end, min(3, 0) = 0, and yet [splitPDF] resolves, with
    pages 1 to 3. *)
Lemma splitPDF_end_zero_resolves :
  Z.max 1 1 > Z.min 3 0
  /\ splitPDF Demo.load Demo.save Demo.b "range" (mkSplitOptions (Some 1) (Some 0) None)
     = Ok (mkSplitResult [mkFile [x63; x64; x65] "b_pages_1-3.pdf" "application/pdf"] 3)
  /\ ~ exists msg,
         splitPDF Demo.load Demo.save Demo.b "range"
           (mkSplitOptions (Some 1) (Some 0) None) = Err (Error msg).
Proof.
  split; [reflexivity|]. split; [reflexivity|].
  intros (msg & H). discriminate H.
Qed.

(** Selecting [3, 1, 2] gives the pages in the order 1, 2, 3: what the
    theorem says of the output leaves no other document. *)
Lemma splitPDF_custom_321 :
  splitPDF Demo.load Demo.save Demo.b "custom"
    (mkSplitOptions None None (Some [3; 1; 2]))
  = Ok (mkSplitResult [mkFile [x63; x64; x65] "b.pdf" "application/pdf"] 3).
Proof.
  assert (Hsel : [3; 1; 2] <> []) by discriminate.
  assert (Hin : Forall (fun p => 1 <= p <= getPageCount [x63; x64; x65]) [3; 1; 2])
    by (repeat constructor; vm_compute; discriminate).
  destruct (splitPDF_custom_sorted Demo.load Demo.save Demo.b [x63; x64; x65]
              None None [3; 1; 2] eq_refl Hsel Hin)
    as (indices & copied & Heq & Hperm & Hsorted & Hpages).
  rewrite Heq.
  assert (Hidx : indices = [0; 1; 2])
    by exact (Array_sort_canonical _ _ Hperm Hsorted).
  subst indices.
  inversion Hpages as [|i0 p0 l0 c0 (_ & H0) Hp1]; subst.
  inversion Hp1 as [|i1 p1 l1 c1 (_ & H1) Hp2]; subst.
  inversion Hp2 as [|i2 p2 l2 c2 (_ & H2) Hp3]; subst.
  inversion Hp3; subst.
  simpl in H0, H1, H2.
  injection H0 as <-. injection H1 as <-. injection H2 as <-.
  reflexivity.
Defined.

Example splitPDF_custom_321_file :
  splitPDF Demo.load Demo.save Demo.b "custom"
    (mkSplitOptions None None (Some [3; 1; 2]))
  = Ok (mkSplitResult [mkFile [x63; x64; x65] "b.pdf" "application/pdf"] 3).
Proof. reflexivity. Qed.

Lemma pageIndices_of_custom_321 :
  Forall (Sorted Z.le) [[0; 1; 2]]
  /\ ("custom" = "all" -> Z.of_nat (List.length [[0; 1; 2]]) = 3
                          /\ Forall (@NoDup Z) [[0; 1; 2]])
  /\ ("custom" = "range" -> List.length [[0; 1; 2]] = 1%nat
                            /\ Forall (@NoDup Z) [[0; 1; 2]])
  /\ ("custom" = "custom" ->
        List.length [[0; 1; 2]] = 1%nat
        /\ exists sel, selectedPages (mkSplitOptions None None (Some [3; 1; 2])) = Some sel
             /\ (Forall (@NoDup Z) [[0; 1; 2]] <-> NoDup sel)).
Proof.
  refine (pageIndices_of_invariant 3 "custom"
            (mkSplitOptions None None (Some [3; 1; 2])) [[0; 1; 2]] _ eq_refl).
  vm_compute. discriminate.
Defined.

(** C6, as stated, fails: a selection that names page 1 twice gives the
    index sequence [0, 0], whose indices are not unique, and the output holds
    that page twice. *)
Lemma pageIndices_of_custom_repeats :
  pageIndices_of 3 "custom" (mkSplitOptions None None (Some [1; 1])) = Ok [[0; 0]]
  /\ ~ NoDup [0; 0]
  /\ splitPDF Demo.load Demo.save Demo.b "custom"
       (mkSplitOptions None None (Some [1; 1]))
     = Ok (mkSplitResult [mkFile [x63; x63] "b.pdf" "application/pdf"] 3).
Proof.
  split; [reflexivity|]. split; [|reflexivity].
  intros H. inversion H as [|x l Hin _]. apply Hin. left. reflexivity.
Qed.


Example convertToWebP_not_an_image :
  convertToWebP fst snd Demo.decode Demo.toDataURL Demo.atob Demo.not_an_image None true
  = Rejected (Error "Failed to load image").
Proof. reflexivity. Qed.

(** An image of natural width 0: the canvas has no pixels, its text is
    [data:,], reading it throws and the promise does not settle. *)
Example convertToWebP_no_pixels :
  convertToWebP fst snd Demo.decode Demo.toDataURL Demo.atob Demo.flat None false
  = Pending (TypeError "Cannot read properties of null").
Proof. reflexivity. Qed.

(** A broken file counts as zero pages; the three-page document as three. *)
Lemma getPDFPageCount_broken :
  getPDFPageCount Demo.load Demo.broken = Ok 0
  /\ getPDFPageCount Demo.load Demo.b = Ok 3.
Proof.
  split.
  - exact (proj1 (proj2 (proj2 (getPDFPageCount_soft_fail Demo.load Demo.save
                                  Demo.broken))
                    (LibraryError "Failed to parse PDF document") eq_refl)).
  - exact (proj1 (proj2 (getPDFPageCount_soft_fail Demo.load Demo.save Demo.b))
             [x63; x64; x65] eq_refl).
Defined.

(** A selected page the document does not have makes the copy fail, with an
    error that is not one of the three of [splitPDF]. *)
Example splitPDF_custom_out_of_bounds :
  splitPDF Demo.load Demo.save Demo.b "custom" (mkSplitOptions None None (Some [9]))
  = Err (TypeError "Cannot read properties of undefined").
Proof. reflexivity. Qed.

(** * Further examples on the small instance *)

Lemma mergePDFs_broken_second :
  mergePDFs Demo.load Demo.save [Demo.a; Demo.broken; Demo.b]
  = Err (LibraryError "Failed to parse PDF document").
Proof.
  refine (mergePDFs_first_failure Demo.load Demo.save [Demo.a] [Demo.b] Demo.broken
            [[x61; x62]] (LibraryError "Failed to parse PDF document") _ eq_refl).
  repeat constructor.
Defined.

Lemma mergePDFs_counts_two_three :
  exists counts,
    mapM (getPDFPageCount Demo.load) [Demo.a; Demo.b] = Ok counts
    /\ 5 = Zsum counts
    /\ 5 = blob_size (mkBlob [x61; x62; x63; x64; x65] "application/pdf").
Proof.
  exact (mergePDFs_pages_sum_of_counts Demo.load Demo.save [Demo.a; Demo.b]
           (mkMergeResult (mkBlob [x61; x62; x63; x64; x65] "application/pdf") 5 5)
           eq_refl).
Defined.

(** Merging [a] alone and then the result with [b] is merging [a] and
    [b]. *)
Lemma mergePDFs_in_two_steps :
  mergePDFs Demo.load (PDFDocument_save Demo.serialize Demo.blank)
    [mkFile [x61; x62] "merged.pdf" "application/pdf"; Demo.b]
  = mergePDFs Demo.load (PDFDocument_save Demo.serialize Demo.blank)
      ([Demo.a] ++ [Demo.b]).
Proof.
  refine (mergePDFs_incremental Demo.load Demo.serialize Demo.blank [Demo.a] [Demo.b]
            [[x61; x62]]
            (mkMergeResult (mkBlob [x61; x62] "application/pdf") 2 2)
            "merged.pdf" "application/pdf" _ _ eq_refl eq_refl).
  - repeat constructor.
  - discriminate.
Defined.

Lemma split_all_then_merge_b :
  exists outs,
    splitPDF Demo.load (PDFDocument_save Demo.serialize Demo.blank) Demo.b "all"
      (mkSplitOptions None None None)
    = Ok (mkSplitResult outs 3)
    /\ mergePDFs Demo.load (PDFDocument_save Demo.serialize Demo.blank) outs
       = Ok (mkMergeResult (mkBlob [x63; x64; x65] "application/pdf") 3 3).
Proof.
  refine (split_all_then_merge Demo.load Demo.serialize Demo.blank Demo.b
            [x63; x64; x65] (mkSplitOptions None None None) eq_refl _ _).
  - discriminate.
  - intros p [<-|[<-|[<-|[]]]]; reflexivity.
Defined.

Lemma splitPDF_all_names_b :
  exists outs,
    splitPDF Demo.load Demo.save Demo.b "all" (mkSplitOptions None None None)
    = Ok (mkSplitResult outs 3)
    /\ map name outs = ["b_pages_1.pdf"; "b_pages_2.pdf"; "b_pages_3.pdf"]
    /\ NoDup (map name outs).
Proof.
  exact (splitPDF_all_names Demo.load Demo.save Demo.b [x63; x64; x65]
           (mkSplitOptions None None None) eq_refl).
Defined.

(** A range with no bounds is the whole document. *)
Lemma splitPDF_range_no_bounds :
  splitPDF Demo.load Demo.save Demo.b "range" (mkSplitOptions None None None)
  = Ok (mkSplitResult [mkFile [x63; x64; x65] "b_pages_1-3.pdf" "application/pdf"] 3).
Proof.
  refine (proj2 (proj2 (splitPDF_range_any_options Demo.load Demo.save Demo.b
                          [x63; x64; x65] (mkSplitOptions None None None) eq_refl))
            eq_refl eq_refl _).
  discriminate.
Defined.

Lemma splitPDF_custom_321_is_123 :
  splitPDF Demo.load Demo.save Demo.b "custom" (mkSplitOptions None None (Some [3; 1; 2]))
  = splitPDF Demo.load Demo.save Demo.b "custom"
      (mkSplitOptions (Some 2) (Some 2) (Some [1; 2; 3])).
Proof.
  refine (splitPDF_custom_order_irrelevant Demo.load Demo.save Demo.b
            None None (Some 2) (Some 2) [3; 1; 2] [1; 2; 3] _).
  exact (perm_trans (perm_swap 1 3 [2]) (perm_skip 1 (perm_swap 2 3 []))).
Defined.

Lemma splitPDF_custom_page_four_of_three :
  splitPDF Demo.load Demo.save Demo.b "custom" (mkSplitOptions None None (Some [1; 4]))
  = Err (TypeError "Cannot read properties of undefined").
Proof.
  refine (splitPDF_custom_missing_page Demo.load Demo.save Demo.b [x63; x64; x65]
            None None [1; 4] 4 eq_refl _ _).
  - simpl. auto.
  - right. vm_compute. reflexivity.
Defined.

(** The 250 x 120 photo in a 125 x 60 box. The type asked for with format
    [PNG] is [image/PNG]; the file has type [image/png]. With no dimension
    given the canvas has no pixels and the promise does not settle. *)
Lemma resizeImage_photo_name :
  resizeImage fst snd Demo.decode Demo.toDataURL Demo.atob Demo.Number_toString
    Demo.toLowerCase Demo.photo (Some 125%float) (Some 60%float) true "original"
  = Resolved (mkFile [x2a] "photo.final_125x60.png" "image/png")
  /\ resizeImage fst snd Demo.decode Demo.toDataURL Demo.atob Demo.Number_toString
       Demo.toLowerCase Demo.photo (Some 125%float) (Some 60%float) true "PNG"
     = Resolved (mkFile [x2a] "photo.final_125x60.PNG" "image/png")
  /\ resizeImage fst snd Demo.decode Demo.toDataURL Demo.atob Demo.Number_toString
       Demo.toLowerCase Demo.photo None None false "original"
     = Pending (TypeError "Cannot read properties of null").
Proof.
  split; [|split].
  - destruct (proj2 (resizeImage_output_name fst snd Demo.decode Demo.toDataURL
                       Demo.atob Demo.Number_toString Demo.toLowerCase Demo.photo
                       (250%float, 120%float) (Some 125%float) (Some 60%float) true
                       "original" eq_refl)
                (mkBlob [x2a] "image/png") eq_refl) as (nm & Hr & _ & Horig).
    destruct (Horig eq_refl) as (Hext & _).
    rewrite Hr, (Hext "photo.final" "PNG" eq_refl eq_refl). reflexivity.
  - destruct (proj2 (resizeImage_output_name fst snd Demo.decode Demo.toDataURL
                       Demo.atob Demo.Number_toString Demo.toLowerCase Demo.photo
                       (250%float, 120%float) (Some 125%float) (Some 60%float) true
                       "PNG" eq_refl)
                (mkBlob [x2a] "image/png") eq_refl) as (nm & Hr & Hfmt & _).
    assert (Hne : "PNG" <> "original") by discriminate.
    rewrite Hr, (Hfmt Hne "photo.final" "PNG" eq_refl eq_refl). reflexivity.
  - exact (proj1 (resizeImage_output_name fst snd Demo.decode Demo.toDataURL
                    Demo.atob Demo.Number_toString Demo.toLowerCase Demo.photo
                    (250%float, 120%float) None None false "original" eq_refl)
             (TypeError "Cannot read properties of null") eq_refl).
Defined.

(** The text that [toDataURL] returns for three bytes, with the media type
    in capitals: the blob has it in lower case. *)
Lemma dataURLToBlob_webp :
  dataURLToBlob Demo.atob (ustr "data:IMAGE/WebP;base64,Zm9v")
  = Ok (mkBlob [x66; x6f; x6f] "image/webp").
Proof.
  exact (proj1 (dataURLToBlob_reads_data_url Demo.atob)
           (ustr "data") (ustr "IMAGE/WebP") (ustr "base64") (ustr "Zm9v") eq_refl).
Defined.

Example dataURLToBlob_no_pixels :
  dataURLToBlob Demo.atob (ustr "data:,")
  = Err (TypeError "Cannot read properties of null").
Proof. reflexivity. Qed.

Lemma generatePageThumbnails_two_of_three :
  generatePageThumbnails Demo.load Demo.b [error_box] 2
  = [page_thumbnail 1; page_thumbnail 2; page_more 1]
  /\ Z.of_nat (List.length
                 (shown_pages (generatePageThumbnails Demo.load Demo.b [error_box] 2)))
     + hidden_pages (generatePageThumbnails Demo.load Demo.b [error_box] 2) = 3.
Proof.
  split; [reflexivity|].
  refine (proj2 (proj1 (generatePageThumbnails_accounts_for_pages Demo.load Demo.b
                          [error_box] 2) [x63; x64; x65] eq_refl _)).
  vm_compute. discriminate.
Defined.

(** A field with [max="0"] is not bounded above, and an empty field takes
    the lower bound. *)
Example validate_number_input_examples :
  validate_number_input 1 10 50 = 10%float
  /\ validate_number_input 1 10 PrimFloat.nan = 1%float
  /\ validate_number_input PrimFloat.nan 0 50 = 50%float.
Proof. repeat split. Qed.

Lemma splitPDF_range_clamped_shape :
  getPDFPageCount Demo.load Demo.b = Ok 3
  /\ Forall (fun f => type f = "application/pdf"
                      /\ exists stem, name f = (stem ++ ".pdf")%string)
       [mkFile [x64; x65] "b_pages_2-3.pdf" "application/pdf"]
  /\ ("range" = "all" -> Z.of_nat 1 = 3)
  /\ ("range" <> "all" -> 1%nat = 1%nat).
Proof.
  exact (splitPDF_result_shape Demo.load Demo.save Demo.b "range"
           (mkSplitOptions (Some 2) (Some 9) None)
           (mkSplitResult [mkFile [x64; x65] "b_pages_2-3.pdf" "application/pdf"] 3)
           eq_refl).
Defined.

Lemma splitPDF_custom_page_listed_twice :
  exists f copied,
    splitPDF Demo.load Demo.save Demo.b "custom" (mkSplitOptions None None (Some [1; 1]))
    = Ok (mkSplitResult [f] 3)
    /\ file_data f = Demo.save copied
    /\ List.length copied = 2%nat.
Proof.
  refine (splitPDF_custom_page_count Demo.load Demo.save Demo.b [x63; x64; x65]
            None None [1; 1] eq_refl _ _).
  - discriminate.
  - repeat constructor; vm_compute; discriminate.
Defined.

Lemma merge_a_b_then_ranges :
  (exists f1,
      splitPDF Demo.load Demo.save
        (mkFile [x61; x62; x63; x64; x65] "merged.pdf" "application/pdf") "range"
        (mkSplitOptions (Some 1) (Some 2) None)
      = Ok (mkSplitResult [f1] 5)
      /\ file_data f1 = [x61; x62])
  /\ (exists f2,
        splitPDF Demo.load Demo.save
          (mkFile [x61; x62; x63; x64; x65] "merged.pdf" "application/pdf") "range"
          (mkSplitOptions (Some 3) (Some 5) None)
        = Ok (mkSplitResult [f2] 5)
        /\ file_data f2 = [x63; x64; x65]).
Proof.
  refine (merge_then_range_recovers_sources Demo.load Demo.save Demo.a Demo.b
            [x61; x62] [x63; x64; x65]
            (mkMergeResult (mkBlob [x61; x62; x63; x64; x65] "application/pdf") 5 5)
            "merged.pdf" "application/pdf" eq_refl eq_refl _ _ eq_refl eq_refl);
    discriminate.
Defined.
